(** * Bootstrap test and keyness statistics: a shallow embedding

    This development embeds the numerical core of the notebooks' helper
    modules [bootstrap.py] and [keyness.py] and proves the properties their
    specification states about them, and further properties of the same
    functions and of the functions of [keyness.py] over whole frames.

    Conventions of the embedding.
    - A Python call either returns a value or raises; [result] records which.
    - Numbers come at two levels.  In [Np], [Bootstrap], [Keyness] and
      [Frames] a [numpy.float64] is an exact rational extended with the two
      infinities and NaN: rounding, overflow and the sign of zero are left
      out.  The statements at this level are about keys, shapes, errors,
      order and counts, or say that they are about the formulas in exact
      arithmetic.  In [Machine] the contingency tables are numpy arrays of
      doubles or of 64-bit integers, with IEEE 754 rounding and integer
      wrap-around: what [compute_expected] and
      [compute_log_likelihood_from_observed] compute is stated there.
    - The process-wide random source of [numpy.random] is an explicit state
      that every draw threads through.
    - numpy and pandas are libraries the modules call, not part of them:
      [randint], integer-array indexing, [sum], [log], the frame lookups,
      [groupby], [value_counts], [unstack] and [apply] are written here from
      the behaviour of the libraries, and the source of randomness and the
      logarithm are left as parameters.
    - A frame is the list of its row labels and a map from column labels to
      columns of numbers; the order of the columns and labels that occur
      twice are not represented. *)

From Stdlib Require Import ZArith QArith Qcanon Lia.
From Stdlib Require Floats.
From stdpp Require Import base decidable option numbers list strings gmap.
From stdpp Require Import sorting.

Local Open Scope Z_scope.

(** ** Python: exceptions and results *)

Module Py.

Inductive exn : Type :=
| ValueError
| ZeroDivisionError
| IndexError
| KeyError.

Inductive result (A : Type) : Type :=
| Ok (a : A)
| Raise (e : exn).

Arguments Ok {A} a.
Arguments Raise {A} e.

#[global] Instance exn_eq_dec : EqDecision exn.
Proof. solve_decision. Defined.

#[global] Instance result_eq_dec {A : Type} `{EqDecision A} :
  EqDecision (result A).
Proof. solve_decision. Defined.

#[global] Instance result_ret : MRet result := fun A a => Ok a.

#[global] Instance result_bind : MBind result := fun A B f m =>
  match m with
  | Ok a => f a
  | Raise e => Raise e
  end.

#[global] Instance result_fmap : FMap result := fun A B f m =>
  match m with
  | Ok a => Ok (f a)
  | Raise e => Raise e
  end.

(** A lookup that raises [e] when the key or position is absent. *)
Definition or_raise {A : Type} (e : exn) (o : option A) : result A :=
  match o with
  | Some a => Ok a
  | None => Raise e
  end.

(** A [for] loop over [l] that updates the state [s] and stops at the first
    exception. *)
Fixpoint for_in {A S : Type} (l : list A) (body : S -> A -> result S) (s : S)
  : result S :=
  match l with
  | [] => Ok s
  | x :: l' => s' ← body s x; for_in l' body s'
  end.

Definition raises {A : Type} (m : result A) : Prop :=
  match m with
  | Ok _ => False
  | Raise _ => True
  end.

End Py.

Export Py.

(** ** numpy.float64, idealised *)

Module Np.

Inductive float64 : Type :=
| Fin (q : Qc)
| PInf
| NInf
| NaN.

#[global] Instance float64_eq_dec : EqDecision float64.
Proof. solve_decision. Defined.

Definition of_int (z : Z) : float64 := Fin (Q2Qc (inject_Z z)).

Definition zero : float64 := Fin 0%Qc.
Definition one : float64 := Fin 1%Qc.
Definition two : float64 := Fin (Q2Qc 2).

(** The infinity (or NaN) a non-finite product or quotient takes from the
    sign of its finite operand. *)
Definition inf_of_sign (q : Qc) : float64 :=
  if decide (q = 0%Qc) then NaN
  else if decide (0 < q)%Qc then PInf else NInf.

Definition neg (x : float64) : float64 :=
  match x with
  | Fin a => Fin (- a)%Qc
  | PInf => NInf
  | NInf => PInf
  | NaN => NaN
  end.

Definition add (x y : float64) : float64 :=
  match x, y with
  | NaN, _ | _, NaN => NaN
  | Fin a, Fin b => Fin (a + b)%Qc
  | PInf, NInf | NInf, PInf => NaN
  | PInf, _ | _, PInf => PInf
  | NInf, _ | _, NInf => NInf
  end.

Definition sub (x y : float64) : float64 := add x (neg y).

Definition mul (x y : float64) : float64 :=
  match x, y with
  | NaN, _ | _, NaN => NaN
  | Fin a, Fin b => Fin (a * b)%Qc
  | Fin a, PInf | PInf, Fin a => inf_of_sign a
  | Fin a, NInf | NInf, Fin a => inf_of_sign (- a)%Qc
  | PInf, PInf | NInf, NInf => PInf
  | PInf, NInf | NInf, PInf => NInf
  end.

(** numpy's division: a zero divisor gives an infinity or NaN (with a
    warning), never an exception. *)
Definition div (x y : float64) : float64 :=
  match x, y with
  | NaN, _ | _, NaN => NaN
  | Fin a, Fin b => if decide (b = 0%Qc) then inf_of_sign a else Fin (a / b)%Qc
  | Fin _, (PInf | NInf) => Fin 0%Qc
  | PInf, Fin b => if decide (b < 0)%Qc then NInf else PInf
  | NInf, Fin b => if decide (b < 0)%Qc then PInf else NInf
  | (PInf | NInf), (PInf | NInf) => NaN
  end.

(** [x > y]: false as soon as one side is NaN. *)
Definition gt (x y : float64) : bool :=
  match x, y with
  | NaN, _ | _, NaN => false
  | Fin a, Fin b => bool_decide (b < a)%Qc
  | _, PInf => false
  | PInf, _ => true
  | NInf, _ => false
  | Fin _, NInf => true
  end.

Definition is_nan (x : float64) : bool :=
  match x with NaN => true | _ => false end.

Definition is_finite (x : float64) : bool :=
  match x with Fin _ => true | _ => false end.

(** [numpy.sum] over a one-dimensional array. *)
Definition sum (a : list float64) : float64 := fold_left add a zero.

End Np.

Export Np.

(** ** bootstrap.py *)

Module Bootstrap.

(** Computations that draw from the random source: the state of the source
    goes in, and either a value with the next state or an exception comes
    out. *)
Definition M (rng A : Type) : Type := rng -> result (A * rng).

#[global] Instance M_ret {rng : Type} : MRet (M rng) :=
  fun A a g => Ok (a, g).

#[global] Instance M_bind {rng : Type} : MBind (M rng) := fun A B f m g =>
  match m g with
  | Ok (a, g') => f a g'
  | Raise e => Raise e
  end.

(** A computation that does not touch the random source. *)
Definition pure_step {rng A : Type} (r : result A) : M rng A := fun g =>
  match r with
  | Ok a => Ok (a, g)
  | Raise e => Raise e
  end.

(** [len(a)] *)
Definition len {A : Type} (a : list A) : Z := Z.of_nat (length a).

(** [a[i]] for an integer [i]: negative positions count from the end, and a
    position outside [-len(a), len(a)) raises [IndexError]. *)
Definition getitem {A : Type} (a : list A) (i : Z) : result A :=
  if (i <? - len a) || (len a <=? i) then Raise IndexError
  else or_raise IndexError (a !! Z.to_nat (if i <? 0 then len a + i else i)).

(** [a[index]] for an integer array [index] (numpy's integer-array
    indexing): one element per position, in order. *)
Definition take {A : Type} (a : list A) (index : list Z) : result (list A) :=
  mapM (getitem a) index.

(** Python's [/] on floats: a zero divisor raises.  (On [numpy.float64]
    operands the same expression warns and returns [Np.div]; the two agree
    whenever the divisor is not zero.) *)
Definition truediv (x y : float64) : result float64 :=
  if decide (y = zero) then Raise ZeroDivisionError else Ok (Np.div x y).

(** Python's [/] on integers. *)
Definition int_truediv (a b : Z) : result float64 :=
  if b =? 0 then Raise ZeroDivisionError
  else Ok (Fin (Q2Qc (inject_Z a) / Q2Qc (inject_Z b))%Qc).

(** Python's [sum] over a list of integers. *)
Definition sum_int (l : list Z) : Z := fold_left Z.add l 0.

Definition default_num_samples : Z := 1000.

Section RandomSource.

(** The random source: [next_below bound g] is one bounded draw from the
    source in state [g], with the state after the draw. *)
Context {rng : Type}.
Variable next_below : Z -> rng -> Z * rng.

Fixpoint draws (n : nat) (bound : Z) : M rng (list Z) :=
  match n with
  | O => mret []
  | S n' =>
      i ← (fun g => Ok (next_below bound g));
      rest ← draws n' bound;
      mret (i :: rest)
  end.

(** [numpy.random.randint(low, high, size)] for integer arguments: an array
    of [size] draws from [low, high).  As numpy does, a negative size is
    refused, a size of zero returns the empty array before the bounds are
    looked at, and an empty range is refused otherwise ([ValueError], "low >=
    high"). *)
Definition randint (low high size : Z) : M rng (list Z) :=
  if size <? 0 then pure_step (Raise ValueError)
  else if size =? 0 then mret []
  else if high <=? low then pure_step (Raise ValueError)
  else
    offsets ← draws (Z.to_nat size) (high - low);
    mret (Z.add low <$> offsets).

Definition resample {A : Type} (sample : list A) (resample_length : Z)
  : M rng (list A) :=
  resample_index ← randint 0 (len sample) resample_length;
  pure_step (take sample resample_index).

(** The body of the [for] loop, run [n] more times on the two accumulators. *)
Fixpoint trials (sample1 sample2 : list float64)
    (stat_func : list float64 -> float64) (n : nat)
    (resampled_stats : list float64) (resampled_signs : list Z)
  : M rng (list float64 * list Z) :=
  match n with
  | O => mret (resampled_stats, resampled_signs)
  | S n' =>
      resample1 ← resample sample1 (len sample1);
      resample2 ← resample sample2 (len sample2);
      let res1 := stat_func resample1 in
      let res2 := stat_func resample2 in
      '(stat, sign) ← pure_step
        (if Np.gt res2 zero then
           stat ← truediv res1 res2;
           mret (stat, if Np.gt stat one then 1 else 0)
         else
           mret (if Np.gt res1 zero then PInf else zero,
                 if Np.gt res1 zero then 1 else 0));
      trials sample1 sample2 stat_func n'
        (resampled_stats ++ [stat]) (resampled_signs ++ [sign])
  end.

(** The result is the pair of the p-value and the two-row array
    [[resampled_stats, resampled_signs]]. *)
Definition two_sample_bootstrap_test (sample1 sample2 : list float64)
    (stat_func : list float64 -> float64) (num_samples : Z)
  : M rng (float64 * list (list float64)) :=
  '(resampled_stats, resampled_signs) ←
    trials sample1 sample2 stat_func (Z.to_nat num_samples) [] [];
  p_value ← pure_step
    (int_truediv (sum_int resampled_signs) (len resampled_signs));
  mret (p_value, [resampled_stats; of_int <$> resampled_signs]).

End RandomSource.

(** A small linear congruential generator, to run the definitions on. *)
Definition lcg_next_below (bound : Z) (g : Z) : Z * Z :=
  (g mod bound, (g * 1103515245 + 12345) mod 2147483648).

End Bootstrap.

(** ** keyness.py *)

Module Keyness.

Definition _SMALL : float64 := Fin (Q2Qc (1 # 100000000000000000000)).

(** A two-dimensional array, as the list of its rows. *)
Definition ndarray : Type := list (list float64).

(** [a[i, :]] *)
Definition row_of (a : ndarray) (i : nat) : result (list float64) :=
  or_raise IndexError (a !! i).

(** [a[:, j]] *)
Definition column_of (a : ndarray) (j : nat) : result (list float64) :=
  mapM (fun r : list float64 => or_raise IndexError (r !! j)) a.

(** [a[i, j]] *)
Definition item (a : ndarray) (i j : nat) : result float64 :=
  r ← row_of a i; or_raise IndexError (r !! j).

(** [a.sum()] *)
Definition total (a : ndarray) : float64 := Np.sum (concat a).

(** One entry of the literal in [compute_expected]:
    [observed[i, :].sum() * observed[:, j].sum() / observed.sum()]. *)
Definition expected_cell (observed : ndarray) (i j : nat) : result float64 :=
  r ← row_of observed i;
  c ← column_of observed j;
  mret (Np.div (Np.mul (Np.sum r) (Np.sum c)) (total observed)).

Definition compute_expected (observed : ndarray) : result ndarray :=
  e00 ← expected_cell observed 0 0;
  e01 ← expected_cell observed 0 1;
  e10 ← expected_cell observed 1 0;
  e11 ← expected_cell observed 1 1;
  mret [[e00; e01]; [e10; e11]].

(** A row of the frequency table, read as a dictionary from column name to
    count; a missing key raises [KeyError]. *)
Definition get_complement_from_row (row : gmap string float64)
    (source : string) : result float64 :=
  row_total ← or_raise KeyError (row !! "Total"%string);
  t_target ← or_raise KeyError (row !! source);
  mret (Np.sub row_total t_target).

(** A row of the totals frame. *)
Record totals_row : Type := {
  target_freq : float64;
  ref_freq : float64
}.

Definition get_observed_from_row (row : gmap string float64)
    (source : string) (totals : gmap string totals_row) : result ndarray :=
  t_target ← or_raise KeyError (row !! source);
  t_ref ← get_complement_from_row row source;
  at_source ← or_raise KeyError (totals !! source);
  let nt_target := Np.sub (target_freq at_source) t_target in
  let nt_ref := Np.sub (ref_freq at_source) t_ref in
  mret [[t_target; t_ref]; [nt_target; nt_ref]].

(** [DataFrame.sum()] on one column: NaN entries are skipped. *)
Definition column_sum (c : list float64) : float64 :=
  Np.sum (filter (fun x => is_nan x = false) c).

(** The frequency table is read by columns: each column name (the categories
    and ["Total"]) maps to that column's counts, one per keyword. *)
Definition compute_category_totals (keyword_cat_freq : gmap string (list float64))
  : result (gmap string totals_row) :=
  let keyword_cat_totals := column_sum <$> keyword_cat_freq in
  at_total ← or_raise KeyError (keyword_cat_totals !! "Total"%string);
  mret ((fun t => {| target_freq := t; ref_freq := Np.sub at_total t |})
          <$> keyword_cat_totals).

Section Log.

(** [numpy.log] on a float64. *)
Variable log : float64 -> float64.

Definition compute_log_likelihood_from_observed (observed : ndarray)
  : result (float64 * string) :=
  let sum_likelihood := zero in
  expected ← compute_expected observed;
  sum_likelihood ←
    for_in [0; 1]%nat (fun sum_likelihood i =>
      for_in [0; 1]%nat (fun sum_likelihood j =>
        o ← item observed i j;
        e ← item expected i j;
        mret (Np.add sum_likelihood
                (Np.mul o (log (Np.div (Np.add o _SMALL) (Np.add e _SMALL))))))
        sum_likelihood)
      sum_likelihood;
  o00 ← item observed 0 0;
  e00 ← item expected 0 0;
  mret (Np.mul two sum_likelihood,
        if Np.gt o00 e00 then "more"%string else "less"%string).

Definition compute_log_likelihood_from_row (row : gmap string float64)
    (source : string) (totals : gmap string totals_row) : result float64 :=
  observed ← get_observed_from_row row source totals;
  '(ll, sign) ← compute_log_likelihood_from_observed observed;
  mret ll.

End Log.

End Keyness.

Import Bootstrap Keyness.

(** ** keyness.py: the functions over whole frames *)

Module Frames.

(** A frame of numbers: the labels of its rows, in order, and the values of
    each column by row position.  Columns are read by label; their order is
    not represented. *)
Record frame : Type := {
  index : list string;
  columns : gmap string (list float64)
}.

(** Every column has one value per row. *)
Definition well_formed (fr : frame) : Prop :=
  map_Forall (fun _ c => length c = length (index fr)) (columns fr).

(** Row [i] as a series from column label to value. *)
Definition row_at (cols : gmap string (list float64)) (i : nat)
  : gmap string float64 :=
  omap (fun c : list float64 => c !! i) cols.

(** The rows of a frame with their labels, in order: what
    [apply(..., axis=1)] hands to its function one by one. *)
Definition iterrows (fr : frame) : list (string * gmap string float64) :=
  imap (fun i label => (label, row_at (columns fr) i)) (index fr).

(** What [frame.apply(func, axis=1)] returns for a [func] with numbers as
    results: a series of the results under the labels of the rows or, from
    a frame with an empty axis, possibly a copy of the frame. *)
Inductive applied : Type :=
| Scores (out : list (string * float64))
| Copy (fr : frame).

(** On a frame with rows and columns, [func] is called on each row in turn,
    and an exception of a call is the exception of [apply]. *)
Definition apply_standard (func : gmap string float64 -> result float64)
    (fr : frame) : result (list (string * float64)) :=
  mapM (fun '(label, row) => r ← func row; mret (label, r)) (iterrows fr).

(** On a frame with an empty axis, pandas tries [func] on a row of NaN under
    the frame's column labels, to see whether it reduces a row to a value,
    and ignores an exception of this call.  When the call returns a value,
    the result is a series over the rows: empty without rows, and else
    filled with the result of [func] on an empty row.  When the call raises,
    the result is a copy of the frame. *)
Definition apply_empty_result (func : gmap string float64 -> result float64)
    (fr : frame) : result applied :=
  match func ((fun _ : list float64 => NaN) <$> columns fr) with
  | Ok _ =>
      if decide (index fr = []) then mret (Scores [])
      else r ← func ∅; mret (Scores ((fun label => (label, r)) <$> index fr))
  | Raise _ => mret (Copy fr)
  end.

(** [frame.apply(func, axis=1)]. *)
Definition apply_rows (func : gmap string float64 -> result float64)
    (fr : frame) : result applied :=
  if decide (index fr = [] \/ columns fr = ∅) then apply_empty_result func fr
  else Scores <$> apply_standard func fr.

Section Log.

Variable log : float64 -> float64.

Definition compute_keyness (keyword_cat_freq : frame)
    (keyword_cat_totals : gmap string totals_row) (category : string)
  : result applied :=
  apply_rows (fun keyword =>
                compute_log_likelihood_from_row log keyword category
                  keyword_cat_totals)
             keyword_cat_freq.

End Log.

(** Labels in the order pandas sorts them: strings compared character by
    character. *)
Definition sort_labels (l : list string) : list string :=
  merge_sort (fun s1 s2 => Is_true (String.leb s1 s2)) l.

(** How many rows hold the keyword [k] with the category [c]. *)
Definition count_rows (k c : string) (pairs : list (string * string)) : Z :=
  Z.of_nat (length (filter (fun p => p = (k, c)) pairs)).

(** [frame.sum(axis=1)]: for each of the [n] rows, the sum of the row's
    values over all columns, NaN skipped. *)
Definition sum_rows (n : nat) (cols : gmap string (list float64))
  : list float64 :=
  (fun i => column_sum ((map_to_list (row_at cols i)).*2)) <$> seq 0 n.

(** The counts laid out as [unstack()] and [fillna(0)] leave them: one
    column per category, holding for each keyword, in order, the number of
    rows with that keyword and that category (0 when there is none). *)
Definition unstacked_counts (pairs : list (string * string))
    (row_labels column_labels : list string) : gmap string (list float64) :=
  list_to_map
    ((fun c => (c, (fun k => of_int (count_rows k c pairs)) <$> row_labels))
       <$> column_labels).

(** The table [df] is read by columns of strings without missing values, one
    value per row.  [groupby(keyword_col)[category_col].value_counts()]
    counts the rows of each (keyword, category) pair, and the frame that
    [unstack()] makes of the counts has one row per keyword and one column
    per category, both sorted.  The ["Total"] column is then set to the sums
    of the rows.  A column that [df] does not have is a [KeyError]; when
    the keywords and the categories are one and the same column, the two
    levels of the counts bear the same name and pandas raises a
    [ValueError]. *)
Definition compute_keyword_category_freq (df : gmap string (list string))
    (category_col keyword_col : string) : result frame :=
  keywords ← or_raise KeyError (df !! keyword_col);
  categories ← or_raise KeyError (df !! category_col);
  if decide (keyword_col = category_col) then Raise ValueError
  else
    let pairs := zip keywords categories in
    let row_labels := sort_labels (remove_dups pairs.*1) in
    let column_labels := sort_labels (remove_dups pairs.*2) in
    let key_cat_freq := unstacked_counts pairs row_labels column_labels in
    mret {| index := row_labels;
            columns := <["Total"%string :=
                           sum_rows (length row_labels) key_cat_freq]>
                         key_cat_freq |}.

(** *** Percentage differences *)

(** What a call over frames ends with: besides the exceptions of [exn], a
    lookup of a column as an attribute of the frame raises
    [AttributeError]. *)
Inductive error : Type :=
| Python (e : exn)
| AttributeError.

Inductive outcome (A : Type) : Type :=
| Returns (a : A)
| Fails (e : error).

Arguments Returns {A} a.
Arguments Fails {A} e.

#[global] Instance outcome_ret : MRet outcome := fun A a => Returns a.

#[global] Instance outcome_bind : MBind outcome := fun A B f m =>
  match m with
  | Returns a => f a
  | Fails e => Fails e
  end.

Definition lift {A : Type} (r : result A) : outcome A :=
  match r with
  | Ok a => Returns a
  | Raise e => Fails (Python e)
  end.

(** [frame.name] for a column label [name]. *)
Definition attribute {A : Type} (o : option A) : outcome A :=
  match o with
  | Some a => Returns a
  | None => Fails AttributeError
  end.

Definition fails {A : Type} (m : outcome A) : Prop :=
  match m with
  | Returns _ => False
  | Fails _ => True
  end.

(** A [for] loop in [outcome]. *)
Fixpoint for_each {A S : Type} (l : list A) (body : S -> A -> outcome S)
    (s : S) : outcome S :=
  match l with
  | [] => Returns s
  | x :: l' => s' ← body s x; for_each l' body s'
  end.

(** [frame / series]: the series is matched with the columns of the frame by
    label, and each column is divided by the entry under its label; a label
    that only one of the two has gives a column of NaN over the [n] rows. *)
Definition frame_div_series (cols : gmap string (list float64)) (n : nat)
    (series : gmap string float64) : gmap string (list float64) :=
  merge (fun oc os =>
           match oc, os with
           | Some c, Some d => Some ((fun x => Np.div x d) <$> c)
           | Some c, None => Some ((fun _ => NaN) <$> c)
           | None, Some _ => Some (replicate n NaN)
           | None, None => None
           end)
        cols series.

(** The body of the loop of [compute_percent_diff] for a category other
    than ["Total"]: the values of the new column. *)
Definition percent_diff_column (keyword_cat_freq : frame)
    (cat_totals : gmap string totals_row) (category : string)
  : outcome (list float64) :=
  let keyword_cat_frac_target :=
    frame_div_series (columns keyword_cat_freq)
      (length (index keyword_cat_freq)) (target_freq <$> cat_totals) in
  total ← attribute (columns keyword_cat_freq !! "Total"%string);
  column ← lift (or_raise KeyError (columns keyword_cat_freq !! category));
  at_category ← lift (or_raise KeyError (cat_totals !! category));
  let keyword_cat_frac_ref :=
    (fun x => Np.div x (ref_freq at_category))
      <$> zip_with Np.sub total column in
  frac_target ← lift (or_raise KeyError (keyword_cat_frac_target !! category));
  mret (zip_with (fun t r => Np.div (Np.mul (of_int 100) (Np.sub t r)) r)
          frac_target keyword_cat_frac_ref).

(** The body of the loop of [compute_percent_diff], on one column of the
    frame: ["Total"] is skipped, and a column assigned to [percent_diff]
    gives it the rows of the frequency frame. *)
Definition percent_diff_step (keyword_cat_freq : frame)
    (cat_totals : gmap string totals_row) (percent_diff : frame)
    (entry : string * list float64) : outcome frame :=
  let '(category, _) := entry in
  if decide (category = "Total"%string) then mret percent_diff
  else
    values ← percent_diff_column keyword_cat_freq cat_totals category;
    mret {| index := index keyword_cat_freq;
            columns := <[category := values]> (columns percent_diff) |}.

(** The loop runs over the columns of the frame, from the empty frame. *)
Definition compute_percent_diff (keyword_cat_freq : frame)
    (cat_totals : gmap string totals_row) : outcome frame :=
  for_each (map_to_list (columns keyword_cat_freq))
    (percent_diff_step keyword_cat_freq cat_totals)
    {| index := []; columns := ∅ |}.

End Frames.

Import Frames.

(** ** keyness.py: the contingency tables in numpy's own arithmetic *)

Module Machine.

Import PrimFloat.

(** A [numpy.float64] is a binary64 number: [float], with the IEEE 754
    operations (one rounding to nearest, ties to even, per operation).  A
    [numpy.int64] is an integer from [-2^63] up to [2^63 - 1]; a sum or a
    product that leaves this range wraps around, with a warning at most. *)
Definition wrap (z : Z) : Z := (z + 2 ^ 63) mod 2 ^ 64 - 2 ^ 63.

(** The double nearest to an integer, ties to even: how numpy (and Python)
    turn an integer into a double. *)
Definition to_float (z : Z) : float :=
  FloatOps.SF2Prim
    (SpecFloat.binary_normalize FloatOps.prec FloatOps.emax z 0 false).

(** A numpy scalar of one of the two dtypes. *)
Inductive scalar : Type :=
| Int64 (z : Z)
| Float64 (x : float).

Definition as_float (n : scalar) : float :=
  match n with
  | Int64 z => to_float z
  | Float64 x => x
  end.

(** [n + m] and [n * m]: in 64-bit integers when both are integers, in
    doubles otherwise. *)
Definition add (n m : scalar) : scalar :=
  match n, m with
  | Int64 a, Int64 b => Int64 (wrap (a + b))
  | _, _ => Float64 (as_float n + as_float m)%float
  end.

Definition mul (n m : scalar) : scalar :=
  match n, m with
  | Int64 a, Int64 b => Int64 (wrap (a * b))
  | _, _ => Float64 (as_float n * as_float m)%float
  end.

(** [n / m] is a division of doubles for integers too; a zero divisor gives
    an infinity or NaN, with a warning only. *)
Definition truediv (n m : scalar) : float := (as_float n / as_float m)%float.

(** [n > m] *)
Definition gt (n m : scalar) : bool :=
  match n, m with
  | Int64 a, Int64 b => bool_decide (b < a)
  | _, _ => (as_float m <? as_float n)%float
  end.

(** A two-dimensional array of one dtype, as the list of its rows. *)
Inductive ndarray : Type :=
| IntArray (rows : list (list Z))
| FloatArray (rows : list (list float)).

Definition cells (a : ndarray) : list (list scalar) :=
  match a with
  | IntArray rows => (fun r : list Z => Int64 <$> r) <$> rows
  | FloatArray rows => (fun r : list float => Float64 <$> r) <$> rows
  end.

(** What a sum over the array's dtype starts from: 0 for integers and, for
    doubles, the zero that leaves every double as it is. *)
Definition identity (a : ndarray) : scalar :=
  match a with
  | IntArray _ => Int64 0
  | FloatArray _ => Float64 neg_zero
  end.

(** [.sum()] over elements of [a], added in order. *)
Definition sum (a : ndarray) (l : list scalar) : scalar :=
  fold_left add l (identity a).

(** [a[i, :]], [a[:, j]] and [a[i, j]] *)
Definition row_of (a : ndarray) (i : nat) : result (list scalar) :=
  or_raise IndexError (cells a !! i).

Definition column_of (a : ndarray) (j : nat) : result (list scalar) :=
  mapM (fun r : list scalar => or_raise IndexError (r !! j)) (cells a).

Definition item (a : ndarray) (i j : nat) : result scalar :=
  r ← row_of a i; or_raise IndexError (r !! j).

(** [a.sum()] *)
Definition total (a : ndarray) : scalar := sum a (concat (cells a)).

(** One entry of the literal in [compute_expected]:
    [observed[i, :].sum() * observed[:, j].sum() / observed.sum()]. *)
Definition expected_cell (observed : ndarray) (i j : nat) : result float :=
  r ← row_of observed i;
  c ← column_of observed j;
  mret (truediv (mul (sum observed r) (sum observed c)) (total observed)).

(** The four quotients are doubles, and so is the array made of them. *)
Definition compute_expected (observed : ndarray) : result ndarray :=
  e00 ← expected_cell observed 0 0;
  e01 ← expected_cell observed 0 1;
  e10 ← expected_cell observed 1 0;
  e11 ← expected_cell observed 1 1;
  mret (FloatArray [[e00; e01]; [e10; e11]]).

(** [1e-20], as the double Python reads it. *)
Definition _SMALL : float := (0x1.79ca10c924223p-67)%float.

Section Log.

(** [numpy.log] on a double. *)
Variable log : float -> float.

(** The sum starts from Python's [0], and every term added to it is a
    double: the product of a cell with a double, the sum of a cell with
    [_SMALL]. *)
Definition compute_log_likelihood_from_observed (observed : ndarray)
  : result (float * string) :=
  let sum_likelihood := to_float 0 in
  expected ← compute_expected observed;
  sum_likelihood ←
    for_in [0; 1]%nat (fun sum_likelihood i =>
      for_in [0; 1]%nat (fun sum_likelihood j =>
        o ← item observed i j;
        e ← item expected i j;
        mret (sum_likelihood
              + as_float o
                * log ((as_float o + _SMALL) / (as_float e + _SMALL)))%float)
        sum_likelihood)
      sum_likelihood;
  o00 ← item observed 0 0;
  e00 ← item expected 0 0;
  mret ((to_float 2 * sum_likelihood)%float,
        if gt o00 e00 then "more"%string else "less"%string).

(** One term of the log-likelihood sum, for an observed cell [o] and an
    expected count [e]. *)
Definition g2_term (o : scalar) (e : float) : float :=
  (as_float o * log ((as_float o + _SMALL) / (e + _SMALL)))%float.

End Log.

(** The expected count of cell [(i, j)] of the table [[a, b], [c, d]], from
    its margins, every operation in the dtype of its operands. *)
Definition expected_at (a b c d : scalar) (i j : nat) : float :=
  truediv (mul (match i with O => add a b | _ => add c d end)
               (match j with O => add a c | _ => add b d end))
          (add (add (add a b) c) d).

(** A zero of either sign, and the doubles that are numbers and not an
    infinity. *)
Definition is_zero (n : scalar) : bool :=
  match n with
  | Int64 z => bool_decide (z = 0)
  | Float64 x => (x =? 0)%float
  end.

Definition is_finite (x : float) : bool :=
  match FloatOps.Prim2SF x with
  | SpecFloat.S754_zero _ | SpecFloat.S754_finite _ _ _ => true
  | _ => false
  end.

End Machine.

(** ** The statements of the specification *)

Module Spec.

(** The ratio rule of the permutation tester, in the specification's words:
    the pair [(ratio, sign)] recorded for the statistics [v1] and [v2]. *)
Definition ratio_rule (v1 v2 : float64) : float64 * Z :=
  if Np.gt v2 zero then
    let ratio := Np.div v1 v2 in (ratio, if Np.gt ratio one then 1 else 0)
  else
    (if Np.gt v1 zero then PInf else zero, if Np.gt v1 zero then 1 else 0).

(** [r] has exactly as many elements as [sample], each one an element of
    [sample]. *)
Definition drawn_from {A : Type} (sample r : list A) : Prop :=
  length r = length sample /\ Forall (fun x => x ∈ sample) r.

(** The pairs of statistics a run of trials can see: one statistic of a
    resample of each sample. *)
Definition trial_stats (sample1 sample2 : list float64)
    (stat_func : list float64 -> float64) (v : float64 * float64) : Prop :=
  exists r1 r2, drawn_from sample1 r1 /\ drawn_from sample2 r2 /\
    v.1 = stat_func r1 /\ v.2 = stat_func r2.

(** The expected count of cell [(i, j)] of the table [[a, b], [c, d]],
    from its margins. *)
Definition row_sum (a b c d : float64) (i : nat) : float64 :=
  match i with O => Np.add a b | _ => Np.add c d end.

Definition col_sum (a b c d : float64) (j : nat) : float64 :=
  match j with O => Np.add a c | _ => Np.add b d end.

Definition grand_total (a b c d : float64) : float64 :=
  Np.add (Np.add (Np.add a b) c) d.

Definition expected_at (a b c d : float64) (i j : nat) : float64 :=
  Np.div (Np.mul (row_sum a b c d i) (col_sum a b c d j)) (grand_total a b c d).

(** One term of the log-likelihood sum, for an observed count [o] and an
    expected count [e]. *)
Definition g2_term (log : float64 -> float64) (o e : float64) : float64 :=
  Np.mul o (log (Np.div (Np.add o _SMALL) (Np.add e _SMALL))).

End Spec.

Import Spec.

(** ** Data to run the definitions on *)

Module Data.

Definition f (z : Z) : float64 := of_int z.

(** A statistic: the mean of an array, as [numpy.mean] computes it. *)
Definition mean (a : list float64) : float64 :=
  Np.div (Np.sum a) (of_int (len a)).

(** The samples of the specification's end-to-end example. *)
Definition ones : list float64 := [f 1; f 1; f 1; f 1; f 1].
Definition zeros : list float64 := [f 0; f 0; f 0; f 0; f 0].

(** A frequency table of three keywords over two categories, by columns,
    with its ["Total"] column. *)
Definition keyword_cat_freq : gmap string (list float64) :=
  <["crime"%string := [f 50; f 4; f 6]]>
  (<["romance"%string := [f 10; f 16; f 14]]>
  (<["Total"%string := [f 60; f 20; f 20]]> ∅)).

(** The first keyword's row of that table. *)
Definition first_row : gmap string float64 :=
  <["crime"%string := f 50]>
  (<["romance"%string := f 10]>
  (<["Total"%string := f 60]> ∅)).

(** The frequency table as a frame, with its keywords. *)
Definition freq_frame : frame :=
  {| index := ["dark"; "love"; "war"]%string; columns := keyword_cat_freq |}.

(** A table of tagged keywords, one row per occurrence. *)
Definition tagged : gmap string (list string) :=
  <["keyword"%string := ["war"; "love"; "war"; "dark"; "love"; "war"]%string]>
  (<["genre"%string :=
       ["crime"; "romance"; "crime"; "crime"; "romance"; "romance"]%string]> ∅).

Definition tagged_keywords : list string :=
  ["war"; "love"; "war"; "dark"; "love"; "war"]%string.

Definition tagged_genres : list string :=
  ["crime"; "romance"; "crime"; "crime"; "romance"; "romance"]%string.

(** A small frame: one keyword that never occurs in the category and one
    that occurs in it only, with the totals of the category. *)
Definition small_frame : frame :=
  {| index := ["never"; "only"]%string;
     columns := <["crime"%string := [f 0; f 5]]>
                (<["Total"%string := [f 4; f 5]]> ∅) |}.

Definition small_totals : gmap string totals_row :=
  <["crime"%string := {| target_freq := f 5; ref_freq := f 4 |}]> ∅.

Definition totals : gmap string totals_row :=
  match compute_category_totals keyword_cat_freq with
  | Ok t => t
  | Raise _ => ∅
  end.

End Data.

(** Tables in numpy's dtypes. *)
Module Tables.

Import PrimFloat.

(** Counts of a keyword and a genre. *)
Definition counts : Machine.ndarray :=
  Machine.IntArray [[50; 10]; [10; 30]].

(** An integer table whose margins multiply to more than [2^63]. *)
Definition wrapped : Machine.ndarray :=
  Machine.IntArray [[3000000000; 3000000000]; [3000000000; 3000000000]].

(** A table of doubles whose diagonal and off-diagonal products are
    equal: 60671751 * 20911360 = 52878560 * 23993256. *)
Definition tied : Machine.ndarray :=
  Machine.FloatArray [[60671751; 52878560]; [23993256; 20911360]]%float.

(** A small table of doubles. *)
Definition thirds : Machine.ndarray :=
  Machine.FloatArray [[0; 1]; [2; 0]]%float.

End Tables.

(** ** Further vocabulary *)

Module Shape.

(** At least two rows, each of at least two entries. *)
Definition at_least_2x2 (observed : ndarray) : Prop :=
  (2 <= length observed)%nat /\ Forall (fun r => (2 <= length r)%nat) observed.

(** The percentage difference of one keyword in one category: [x] of the
    keyword's [row_total] occurrences fall in the category, whose target and
    reference frequencies are [target] and [ref]. *)
Definition percent_diff_cell (x row_total target ref : float64) : float64 :=
  let frac_target := Np.div x target in
  let frac_ref := Np.div (Np.sub row_total x) ref in
  Np.div (Np.mul (of_int 100) (Np.sub frac_target frac_ref)) frac_ref.

(** The column of percentage differences of a category, when the frame has
    the category and ["Total"] and the totals have the category. *)
Definition new_column (keyword_cat_freq : frame)
    (cat_totals : gmap string totals_row) (c : string) : list float64 :=
  match columns keyword_cat_freq !! "Total"%string,
        columns keyword_cat_freq !! c, cat_totals !! c with
  | Some total, Some column, Some at_category =>
      zip_with (fun x row_total =>
                  percent_diff_cell x row_total (target_freq at_category)
                    (ref_freq at_category))
        column total
  | _, _, _ => []
  end.

(** The frequency frame of a table whose keyword and category columns are
    [keywords] and [categories]. *)
Definition counted_frame (keywords categories : list string) : frame :=
  {| index := sort_labels (remove_dups keywords);
     columns :=
       <["Total"%string :=
           sum_rows (length (sort_labels (remove_dups keywords)))
             (unstacked_counts (zip keywords categories)
                (sort_labels (remove_dups keywords))
                (sort_labels (remove_dups categories)))]>
         (unstacked_counts (zip keywords categories)
            (sort_labels (remove_dups keywords))
            (sort_labels (remove_dups categories))) |}.

(** How many entries of [l] are [x]. *)
Definition occurrences (x : string) (l : list string) : Z :=
  Z.of_nat (length (filter (fun y => y = x) l)).

End Shape.

Import Shape.

(** * Properties *)

(** ** Arithmetic of the idealised floats *)

Lemma add_zero_l (x : float64) : Np.add zero x = x.
Proof.
  destruct x as [q| | |]; simpl; trivial.
  f_equal. apply Qcplus_0_l.
Qed.

Lemma gt_irrefl (x : float64) : Np.gt x x = false.
Proof.
  destruct x as [q| | |]; simpl; trivial.
  apply bool_decide_eq_false. intros Hlt. apply Qclt_not_eq in Hlt. congruence.
Qed.

Lemma gt_zero_nonzero (x : float64) : Np.gt x zero = true -> x <> zero.
Proof.
  intros Hgt ->. rewrite gt_irrefl in Hgt. discriminate.
Qed.

Lemma div_by_zero_not_finite (x : float64) : is_finite (Np.div x zero) = false.
Proof.
  destruct x as [q| | |]; simpl; trivial.
  destruct (decide (0%Qc = 0%Qc)) as [_|Hne]; [|congruence].
  unfold inf_of_sign. repeat case_decide; reflexivity.
Qed.

Lemma sum_cons (x : float64) (l : list float64) (acc : float64) :
  fold_left Np.add (x :: l) acc = fold_left Np.add l (Np.add acc x).
Proof. reflexivity. Qed.

Lemma sum_finite (l : list float64) (q0 : Qc) :
  Forall (fun x => is_finite x = true) l ->
  exists q, fold_left Np.add l (Fin q0) = Fin q.
Proof.
  intros Hall. revert q0.
  induction Hall as [|x l Hx _ IH]; intros q0.
  - exists q0. reflexivity.
  - destruct x as [q| | |]; try discriminate.
    rewrite sum_cons. simpl. apply IH.
Qed.

(** ** Python's integer division and sums *)

Lemma sum_int_app (l : list Z) (acc : Z) :
  fold_left Z.add l acc = acc + sum_int l.
Proof.
  unfold sum_int. revert acc.
  induction l as [|x l IH]; intros acc; simpl.
  - lia.
  - rewrite IH, (IH (0 + x)). lia.
Qed.

Lemma sum_int_bits (l : list Z) :
  Forall (fun s => s = 0 \/ s = 1) l -> 0 <= sum_int l <= len l.
Proof.
  unfold len.
  induction 1 as [|s l Hs _ IH].
  - unfold sum_int. simpl. lia.
  - unfold sum_int. simpl. rewrite sum_int_app. simpl length. lia.
Qed.

Lemma Qc_ratio_unit (a b : Z) :
  0 <= a <= b -> 0 < b ->
  (0 <= Q2Qc (inject_Z a) / Q2Qc (inject_Z b) <= 1)%Qc.
Proof.
  intros Hab Hb.
  assert (Hb' : (inject_Z 0 < inject_Z b)%Q) by (rewrite <- Zlt_Qlt; exact Hb).
  assert (Ha' : (inject_Z 0 <= inject_Z a)%Q) by (rewrite <- Zle_Qle; lia).
  assert (Hab' : (inject_Z a <= inject_Z b)%Q) by (rewrite <- Zle_Qle; lia).
  unfold Qcle, Qcdiv, Qcinv, Qcmult; simpl.
  rewrite !Qred_correct.
  change (0 <= inject_Z a / inject_Z b <= 1)%Q.
  split.
  - apply Qle_shift_div_l; [exact Hb'|]. rewrite Qmult_0_l. exact Ha'.
  - apply Qle_shift_div_r; [exact Hb'|]. rewrite Qmult_1_l. exact Hab'.
Qed.

(** ** Indexing *)

(** Settles the integer tests of a definition from the hypotheses. *)
Ltac settle_test :=
  match goal with
  | |- context [?a <? ?b] =>
      first [ replace (a <? b) with false by (symmetry; apply Z.ltb_ge; lia)
            | replace (a <? b) with true by (symmetry; apply Z.ltb_lt; lia) ]
  | |- context [?a <=? ?b] =>
      first [ replace (a <=? b) with false by (symmetry; apply Z.leb_gt; lia)
            | replace (a <=? b) with true by (symmetry; apply Z.leb_le; lia) ]
  | |- context [?a =? ?b] =>
      first [ replace (a =? b) with false by (symmetry; apply Z.eqb_neq; lia)
            | replace (a =? b) with true by (symmetry; apply Z.eqb_eq; lia) ]
  end.

Lemma getitem_in_range {A : Type} (a : list A) (i : Z) :
  0 <= i < len a -> exists x, getitem a i = Ok x /\ a !! Z.to_nat i = Some x.
Proof.
  intros Hi. unfold getitem. repeat settle_test. simpl.
  destruct (lookup_lt_is_Some_2 a (Z.to_nat i)) as [x Hx].
  - unfold len in Hi. lia.
  - exists x. rewrite Hx. split; reflexivity.
Qed.

Lemma take_in_range {A : Type} (a : list A) (index : list Z) :
  Forall (fun i => 0 <= i < len a) index ->
  exists out, take a index = Ok out /\
    Forall2 (fun i x => a !! Z.to_nat i = Some x) index out.
Proof.
  unfold take.
  induction 1 as [|i index Hi _ (out & Hout & Hall)].
  - exists []. split; [reflexivity | constructor].
  - destruct (getitem_in_range a i Hi) as (x & Hx & Hlook).
    exists (x :: out). split.
    + simpl. rewrite Hx. simpl. rewrite Hout. reflexivity.
    + constructor; assumption.
Qed.

(** ** Draws from the random source *)

Section BootstrapFacts.

Context {rng : Type} (next_below : Z -> rng -> Z * rng).

Lemma M_bind_ok {A B : Type} (m : M rng A) (f : A -> M rng B) g a g' :
  m g = Ok (a, g') -> (m ≫= f) g = f a g'.
Proof. intros Hm. unfold mbind, M_bind. rewrite Hm. reflexivity. Qed.

Lemma M_bind_raise {A B : Type} (m : M rng A) (f : A -> M rng B) g e :
  m g = Raise e -> (m ≫= f) g = Raise e.
Proof. intros Hm. unfold mbind, M_bind. rewrite Hm. reflexivity. Qed.

Lemma randint_empty (low high : Z) g :
  randint next_below low high 0 g = Ok ([], g).
Proof. reflexivity. Qed.

Lemma randint_refused (low high size : Z) g :
  high <= low -> 0 < size ->
  randint next_below low high size g = Raise ValueError.
Proof.
  intros Hrange Hsize. unfold randint. repeat settle_test. reflexivity.
Qed.

Lemma resample_empty_length {A : Type} (sample : list A) g :
  resample next_below sample 0 g = Ok ([], g).
Proof.
  unfold resample.
  rewrite (M_bind_ok _ _ g [] g (randint_empty 0 (len sample) g)).
  reflexivity.
Qed.

Lemma resample_empty_sample {A : Type} (resample_length : Z) g :
  0 < resample_length ->
  resample next_below (@nil A) resample_length g = Raise ValueError.
Proof.
  intros Hn. unfold resample.
  apply M_bind_raise. apply randint_refused; [reflexivity | exact Hn].
Qed.

Hypothesis next_below_range :
  forall bound g, 0 < bound -> 0 <= (next_below bound g).1 < bound.

Lemma draws_in_range (n : nat) (bound : Z) g :
  0 < bound ->
  exists out g', draws next_below n bound g = Ok (out, g') /\
    length out = n /\ Forall (fun i => 0 <= i < bound) out.
Proof.
  intros Hbound. revert g.
  induction n as [|n IH]; intros g.
  - exists [], g. repeat split. constructor.
  - pose proof (next_below_range bound g Hbound) as Hi.
    destruct (next_below bound g) as [i g1] eqn:Hdraw.
    destruct (IH g1) as (out & g' & Hout & Hlen & Hall).
    exists (i :: out), g'. split; [|split].
    + simpl. unfold mbind, M_bind. rewrite Hdraw, Hout. reflexivity.
    + simpl. congruence.
    + constructor; assumption.
Qed.

Lemma randint_in_range (low high size : Z) g :
  low < high -> 0 < size ->
  exists index g', randint next_below low high size g = Ok (index, g') /\
    length index = Z.to_nat size /\ Forall (fun i => low <= i < high) index.
Proof.
  intros Hrange Hsize. unfold randint. repeat settle_test.
  destruct (draws_in_range (Z.to_nat size) (high - low) g) as
    (out & g' & Hout & Hlen & Hall); [lia|].
  exists (Z.add low <$> out), g'. split; [|split].
  - rewrite (M_bind_ok _ _ _ _ _ Hout). reflexivity.
  - rewrite length_fmap. exact Hlen.
  - apply Forall_fmap. eapply Forall_impl; [exact Hall|].
    simpl. intros i Hi. lia.
Qed.

(** A resample of a non-empty sample never fails: it reads [resample_length]
    positions of the sample, all in range. *)
Lemma resample_in_range {A : Type} (sample : list A) (resample_length : Z) g :
  sample <> [] -> 0 <= resample_length ->
  exists index out g',
    resample next_below sample resample_length g = Ok (out, g') /\
    length index = Z.to_nat resample_length /\
    Forall (fun i => 0 <= i < len sample) index /\
    Forall2 (fun i x => sample !! Z.to_nat i = Some x) index out.
Proof.
  intros Hne Hn.
  destruct (Z.eq_dec resample_length 0) as [->|Hpos].
  - exists [], [], g. rewrite resample_empty_length.
    repeat split; constructor.
  - assert (Hlen : 0 < len sample).
    { unfold len. destruct sample; [congruence | simpl; lia]. }
    destruct (randint_in_range 0 (len sample) resample_length g)
      as (index & g' & Hidx & Hcount & Hall); [lia | lia |].
    destruct (take_in_range sample index Hall) as (out & Hout & Hread).
    exists index, out, g'. unfold resample.
    rewrite (M_bind_ok _ _ _ _ _ Hidx). unfold pure_step. rewrite Hout.
    repeat split; assumption.
Qed.

Lemma resample_same_length (sample : list float64) g :
  exists out g', resample next_below sample (len sample) g = Ok (out, g') /\
    drawn_from sample out.
Proof.
  destruct sample as [|x sample].
  - exists [], g. rewrite resample_empty_length. repeat split. constructor.
  - destruct (resample_in_range (x :: sample) (len (x :: sample)) g)
      as (index & out & g' & Hres & Hcount & _ & Hread);
      [discriminate | unfold len; lia |].
    exists out, g'. split; [exact Hres|]. split.
    + rewrite <- (Forall2_length _ _ _ Hread), Hcount. unfold len. lia.
    + clear Hres Hcount. induction Hread as [|i y index out Hy _ IH];
        constructor; [|exact IH].
      eapply list_elem_of_lookup_2. exact Hy.
Qed.

(** ** The trials *)

(** The branch of the loop body never raises: the division is guarded by
    [res2 > 0.0].  Its value is the ratio rule's. *)
Lemma trial_pair (res1 res2 : float64) :
  (if Np.gt res2 zero then
     stat ← truediv res1 res2;
     mret (stat, if Np.gt stat one then 1 else 0)
   else
     mret (if Np.gt res1 zero then PInf else zero,
           if Np.gt res1 zero then 1 else 0))
  = Ok (ratio_rule res1 res2).
Proof.
  unfold ratio_rule.
  destruct (Np.gt res2 zero) eqn:Hgt; [|reflexivity].
  unfold truediv.
  destruct (decide (res2 = zero)) as [Hz|_].
  - apply gt_zero_nonzero in Hgt. contradiction.
  - reflexivity.
Qed.

Lemma trials_run (sample1 sample2 : list float64)
    (stat_func : list float64 -> float64) (n : nat)
    (stats0 : list float64) (signs0 : list Z) g :
  exists vs g',
    trials next_below sample1 sample2 stat_func n stats0 signs0 g =
      Ok ((stats0 ++ ((fun v => (ratio_rule v.1 v.2).1) <$> vs),
           signs0 ++ ((fun v => (ratio_rule v.1 v.2).2) <$> vs)), g') /\
    length vs = n /\
    Forall (trial_stats sample1 sample2 stat_func) vs.
Proof.
  revert stats0 signs0 g.
  induction n as [|n IH]; intros stats0 signs0 g.
  - exists [], g. simpl. rewrite !app_nil_r. repeat split. constructor.
  - destruct (resample_same_length sample1 g) as (r1 & g1 & Hr1 & Hd1).
    destruct (resample_same_length sample2 g1) as (r2 & g2 & Hr2 & Hd2).
    pose proof (trial_pair (stat_func r1) (stat_func r2)) as Hpair.
    destruct (ratio_rule (stat_func r1) (stat_func r2)) as [stat sign] eqn:Hrule.
    destruct (IH (stats0 ++ [stat]) (signs0 ++ [sign]) g2)
      as (vs & g' & Hrun & Hlen & Hall).
    exists ((stat_func r1, stat_func r2) :: vs), g'. split; [|split].
    + cbn [trials].
      rewrite (M_bind_ok _ _ _ _ _ Hr1). cbv beta.
      rewrite (M_bind_ok _ _ _ _ _ Hr2). cbv beta zeta.
      unfold mbind at 1, M_bind at 1, pure_step at 1.
      rewrite Hpair. rewrite Hrun.
      rewrite <- !app_assoc. simpl. rewrite Hrule. reflexivity.
    + simpl. congruence.
    + constructor; [|exact Hall].
      exists r1, r2. split; [exact Hd1|]. split; [exact Hd2|].
      split; reflexivity.
Qed.

Lemma ratio_rule_sign (v1 v2 : float64) :
  (ratio_rule v1 v2).2 = 0 \/ (ratio_rule v1 v2).2 = 1.
Proof.
  unfold ratio_rule.
  destruct (Np.gt v2 zero); simpl.
  - destruct (Np.gt (Np.div v1 v2) one); auto.
  - destruct (Np.gt v1 zero); auto.
Qed.

(** A run with at least one trial: the loop records the ratio rule's pair
    for each trial, and the division by the number of trials goes through. *)
Lemma test_run (sample1 sample2 : list float64)
    (stat_func : list float64 -> float64) (num_samples : Z) g :
  1 <= num_samples ->
  exists vs g',
    let ratios := (fun v => (ratio_rule v.1 v.2).1) <$> vs in
    let signs := (fun v => (ratio_rule v.1 v.2).2) <$> vs in
    two_sample_bootstrap_test next_below sample1 sample2 stat_func
      num_samples g =
      Ok ((Fin (Q2Qc (inject_Z (sum_int signs)) /
                Q2Qc (inject_Z num_samples))%Qc,
           [ratios; of_int <$> signs]), g') /\
    len vs = num_samples /\
    Forall (trial_stats sample1 sample2 stat_func) vs.
Proof.
  intros Hn.
  destruct (trials_run sample1 sample2 stat_func (Z.to_nat num_samples) [] [] g)
    as (vs & g' & Hrun & Hlen & Hall).
  assert (Hvs : len vs = num_samples) by (unfold len; lia).
  exists vs, g'. cbv zeta. split; [|split; assumption].
  unfold two_sample_bootstrap_test.
  rewrite (M_bind_ok _ _ _ _ _ Hrun). cbn [app].
  unfold int_truediv, len. rewrite length_fmap. fold (len vs). rewrite Hvs.
  settle_test. reflexivity.
Qed.

(** C4: [resample(sample, 0)] is the empty array for every sample, the empty
    one included; and for a requested length that is not negative, [resample]
    raises exactly when the sample is empty and the length is positive, with
    numpy's [ValueError] (the invalid-argument error of [randint]). *)
Theorem resample_fails_iff_empty_and_positive {A : Type}
    (sample : list A) (resample_length : Z) g :
  0 <= resample_length ->
  resample next_below sample 0 g = Ok ([], g) /\
  (raises (resample next_below sample resample_length g) <->
     sample = [] /\ 0 < resample_length) /\
  (raises (resample next_below sample resample_length g) ->
     resample next_below sample resample_length g = Raise ValueError).
Proof.
  intros Hn.
  assert (Hiff : raises (resample next_below sample resample_length g) ->
                 sample = [] /\ 0 < resample_length).
  { intros Hraise.
    destruct sample as [|x sample].
    - split; [reflexivity|].
      destruct (Z.eq_dec resample_length 0) as [Hz|Hnz]; [|lia].
      rewrite Hz, resample_empty_length in Hraise. contradiction.
    - destruct (resample_in_range (x :: sample) resample_length g)
        as (index & out & g' & Hres & _); [discriminate | exact Hn |].
      rewrite Hres in Hraise. contradiction. }
  split; [apply resample_empty_length|]. split.
  - split; [exact Hiff|].
    intros [-> Hpos]. rewrite resample_empty_sample by exact Hpos. exact I.
  - intros Hraise. destruct (Hiff Hraise) as [-> Hpos].
    apply resample_empty_sample. exact Hpos.
Qed.

(** C7: a resample of a non-empty sample has exactly the requested number of
    elements, and each of them is the sample's element at a position in
    [0, len(sample)), hence one of the sample's values. *)
Theorem resample_length_and_elements {A : Type}
    (sample : list A) (resample_length : Z) g :
  sample <> [] -> 0 <= resample_length ->
  exists out g',
    resample next_below sample resample_length g = Ok (out, g') /\
    len out = resample_length /\
    Forall (fun x => x ∈ sample /\
              exists i, 0 <= i < len sample /\ getitem sample i = Ok x) out.
Proof.
  intros Hne Hn.
  destruct (resample_in_range sample resample_length g Hne Hn)
    as (index & out & g' & Hres & Hcount & Hall & Hread).
  exists out, g'. split; [exact Hres|]. split.
  - unfold len. rewrite <- (Forall2_length _ _ _ Hread), Hcount. lia.
  - clear Hres Hcount.
    induction Hread as [|i x index out Hx _ IH]; [constructor|].
    apply Forall_cons in Hall as [Hi Hall].
    constructor; [|exact (IH Hall)].
    split.
    + eapply list_elem_of_lookup_2. exact Hx.
    + exists i. split; [exact Hi|].
      destruct (getitem_in_range sample i Hi) as (y & Hy & Hlook).
      congruence.
Qed.

(** C1: in a run of [two_sample_bootstrap_test], every trial records the pair
    that the ratio rule gives for the statistics [(v1, v2)] of its two
    resamples: column [k] of the returned array is [ratio_rule v1 v2] for the
    [k]-th pair of statistics, whatever those statistics are. *)
Theorem every_trial_follows_ratio_rule (sample1 sample2 : list float64)
    (stat_func : list float64 -> float64) (num_samples : Z) g :
  1 <= num_samples ->
  exists vs p_value ratios signs g',
    two_sample_bootstrap_test next_below sample1 sample2 stat_func
      num_samples g = Ok ((p_value, [ratios; signs]), g') /\
    len vs = num_samples /\
    Forall (trial_stats sample1 sample2 stat_func) vs /\
    forall (k : nat) (v1 v2 : float64), vs !! k = Some (v1, v2) ->
      ratios !! k = Some (ratio_rule v1 v2).1 /\
      signs !! k = Some (of_int (ratio_rule v1 v2).2) /\
      ratio_rule v1 v2 =
        if Np.gt v2 zero
        then (Np.div v1 v2, if Np.gt (Np.div v1 v2) one then 1 else 0)
        else (if Np.gt v1 zero then PInf else zero,
              if Np.gt v1 zero then 1 else 0).
Proof.
  intros Hn.
  destruct (test_run sample1 sample2 stat_func num_samples g Hn)
    as (vs & g' & Hrun & Hlen & Hall).
  cbv zeta in Hrun.
  eexists vs, _, _, _, g'. split; [exact Hrun|].
  split; [exact Hlen|]. split; [exact Hall|].
  intros k v1 v2 Hk. split; [|split].
  - rewrite list_lookup_fmap, Hk. reflexivity.
  - rewrite !list_lookup_fmap, Hk. reflexivity.
  - reflexivity.
Qed.


(** C9: a request for zero trials fails at once, with the
    [ZeroDivisionError] of dividing by the empty list's length; with at least
    one trial the test never raises.  When the statistic of every second
    resample is zero (or anything else that is not above zero), each trial is
    recorded as a number that the statistic of its first resample decides:
    the ratio is plus infinity and the sign 1 when that statistic is
    positive, and the ratio is 0 and the sign 0 when it is not.  So when the
    first statistic is positive on every resample, every ratio is plus
    infinity and every sign is 1. *)
Theorem zero_trials_raise_zero_denominators_do_not
    (sample1 sample2 : list float64)
    (stat_func : list float64 -> float64) (num_samples : Z) g :
  1 <= num_samples ->
  two_sample_bootstrap_test next_below sample1 sample2 stat_func 0 g =
    Raise ZeroDivisionError /\
  ~ raises (two_sample_bootstrap_test next_below sample1 sample2 stat_func
              num_samples g) /\
  ((forall r2, drawn_from sample2 r2 -> Np.gt (stat_func r2) zero = false) ->
   exists p_value ratios signs g',
     two_sample_bootstrap_test next_below sample1 sample2 stat_func
       num_samples g = Ok ((p_value, [ratios; of_int <$> signs]), g') /\
     len ratios = num_samples /\
     Forall2 (fun ratio sign =>
                exists r1, drawn_from sample1 r1 /\
                  ratio = (if Np.gt (stat_func r1) zero then PInf else zero) /\
                  sign = (if Np.gt (stat_func r1) zero then 1 else 0))
       ratios signs /\
     ((forall r1, drawn_from sample1 r1 ->
         Np.gt (stat_func r1) zero = true) ->
      Forall (fun ratio => ratio = PInf) ratios /\
      Forall (fun sign => sign = 1) signs)).
Proof.
  intros Hn.
  destruct (test_run sample1 sample2 stat_func num_samples g Hn)
    as (vs & g' & Hrun & Hlen & Hall).
  cbv zeta in Hrun.
  split; [reflexivity|]. split.
  - rewrite Hrun. simpl. tauto.
  - intros Hzero.
    assert (Hrule : Forall (fun v =>
              exists r1, drawn_from sample1 r1 /\
                ratio_rule v.1 v.2 =
                  (if Np.gt (stat_func r1) zero then PInf else zero,
                   if Np.gt (stat_func r1) zero then 1 else 0)) vs).
    { eapply Forall_impl; [exact Hall|].
      intros [v1 v2] (r1 & r2 & Hd1 & Hd2 & Hv1 & Hv2). simpl in *.
      exists r1. split; [exact Hd1|].
      unfold ratio_rule. rewrite Hv2, (Hzero r2 Hd2), Hv1. reflexivity. }
    eexists _, _, _, g'. split; [exact Hrun|]. split; [|split].
    + unfold len in *. rewrite length_fmap. exact Hlen.
    + apply Forall2_fmap, Forall_Forall2_diag.
      eapply Forall_impl; [exact Hrule|].
      intros v (r1 & Hd1 & Hv). exists r1. rewrite Hv. auto.
    + intros Hfirst. split; apply Forall_fmap;
        (eapply Forall_impl; [exact Hrule|]);
        intros v (r1 & Hd1 & Hv); cbn; rewrite Hv, (Hfirst r1 Hd1);
        reflexivity.
Qed.

End BootstrapFacts.

(** ** Expected counts *)

Lemma expected_cell_at (a b c d : float64) (i j : nat) :
  (i < 2)%nat -> (j < 2)%nat ->
  expected_cell [[a; b]; [c; d]] i j = Ok (expected_at a b c d i j).
Proof.
  intros Hi Hj.
  destruct i as [|[|i]]; [| |lia]; (destruct j as [|[|j]]; [| |lia]);
    unfold expected_cell, expected_at, total, Np.sum;
    cbn -[Np.add Np.mul Np.div]; rewrite !add_zero_l; reflexivity.
Qed.

Lemma compute_expected_table (a b c d : float64) :
  compute_expected [[a; b]; [c; d]] =
    Ok [[expected_at a b c d 0 0; expected_at a b c d 0 1];
        [expected_at a b c d 1 0; expected_at a b c d 1 1]].
Proof.
  unfold compute_expected.
  rewrite !expected_cell_at by lia. reflexivity.
Qed.


(** ** The log-likelihood score *)

Section KeynessFacts.

Variable log : float64 -> float64.

Lemma log_likelihood_on_table (a b c d : float64) :
  compute_log_likelihood_from_observed log [[a; b]; [c; d]] =
    Ok (Np.mul two
          (Np.add (Np.add (Np.add (g2_term log a (expected_at a b c d 0 0))
                                  (g2_term log b (expected_at a b c d 0 1)))
                          (g2_term log c (expected_at a b c d 1 0)))
                  (g2_term log d (expected_at a b c d 1 1))),
        if Np.gt a (expected_at a b c d 0 0) then "more"%string
        else "less"%string).
Proof.
  unfold compute_log_likelihood_from_observed.
  rewrite compute_expected_table.
  cbn -[Np.add Np.mul Np.div Np.gt _SMALL two zero].
  rewrite add_zero_l. reflexivity.
Qed.

(** C8: [compute_log_likelihood_from_row] returns the score that
    [compute_log_likelihood_from_observed] computes for the row's observed
    table, and only the score: the direction is dropped, and whatever it is
    the score comes back as it was computed. *)
Theorem row_score_ignores_direction (row : gmap string float64)
    (source : string) (totals : gmap string totals_row) :
  compute_log_likelihood_from_row log row source totals =
    fst <$> (get_observed_from_row row source totals ≫=
             compute_log_likelihood_from_observed log) /\
  (forall observed ll sign,
     get_observed_from_row row source totals = Ok observed ->
     compute_log_likelihood_from_observed log observed = Ok (ll, sign) ->
     compute_log_likelihood_from_row log row source totals = Ok ll).
Proof.
  unfold compute_log_likelihood_from_row. split.
  - destruct (get_observed_from_row row source totals) as [observed|err];
      [|reflexivity].
    simpl.
    destruct (compute_log_likelihood_from_observed log observed)
      as [[ll sign]|err]; reflexivity.
  - intros observed ll sign Hobs Hll.
    rewrite Hobs. simpl. rewrite Hll. reflexivity.
Qed.

End KeynessFacts.

(** ** Category totals *)

Lemma column_sum_finite (c : list float64) :
  Forall (fun v => is_finite v = true) c -> exists q, column_sum c = Fin q.
Proof.
  intros Hall. unfold column_sum, Np.sum, zero.
  apply sum_finite. rewrite Forall_forall in Hall. apply Forall_forall.
  intros v Hv. apply list_elem_of_filter in Hv as [_ Hv]. apply Hall, Hv.
Qed.

(** What [compute_category_totals] holds for a category: its column's sum,
    and the ["Total"] column's sum minus it. *)
Lemma category_totals_lookup (keyword_cat_freq : gmap string (list float64))
    (totals : gmap string totals_row) (source : string) :
  compute_category_totals keyword_cat_freq = Ok totals ->
  exists total_column,
    keyword_cat_freq !! "Total"%string = Some total_column /\
    totals !! source =
      (fun c => {| target_freq := column_sum c;
                   ref_freq := Np.sub (column_sum total_column) (column_sum c) |})
        <$> keyword_cat_freq !! source.
Proof.
  unfold compute_category_totals. rewrite lookup_fmap.
  destruct (keyword_cat_freq !! "Total"%string) as [total_column|] eqn:Htotal;
    [|discriminate].
  simpl. intros [= <-]. exists total_column. split; [reflexivity|].
  rewrite !lookup_fmap. destruct (keyword_cat_freq !! source); reflexivity.
Qed.

(** C10: with totals computed by [compute_category_totals] from a frequency
    table of finite counts, the four cells of the table
    [get_observed_from_row] builds for a row and a category of the totals
    add up to the target frequency of the totals' ["Total"] row, whatever the
    row and the category are. *)
Theorem observed_cells_sum_to_grand_total
    (keyword_cat_freq : gmap string (list float64))
    (totals : gmap string totals_row)
    (row : gmap string float64) (source : string) (t_target row_total : Qc) :
  map_Forall (fun _ c => Forall (fun v => is_finite v = true) c)
    keyword_cat_freq ->
  compute_category_totals keyword_cat_freq = Ok totals ->
  is_Some (totals !! source) ->
  row !! source = Some (Fin t_target) ->
  row !! "Total"%string = Some (Fin row_total) ->
  exists observed at_total,
    get_observed_from_row row source totals = Ok observed /\
    totals !! "Total"%string = Some at_total /\
    total observed = target_freq at_total.
Proof.
  intros Hfinite Htotals [at_source Hsource] Hrow Hrow_total.
  destruct (category_totals_lookup _ _ source Htotals)
    as (total_column & Htotal_column & Hat_source).
  destruct (category_totals_lookup _ _ "Total"%string Htotals)
    as (total_column' & Htotal_column' & Hat_total).
  rewrite Htotal_column in Htotal_column', Hat_total.
  injection Htotal_column' as <-.
  rewrite Hsource in Hat_source.
  destruct (keyword_cat_freq !! source) as [source_column|] eqn:Hsource_column;
    [|discriminate].
  injection Hat_source as ->.
  destruct (column_sum_finite total_column) as [g Hg];
    [exact (Hfinite _ _ Htotal_column)|].
  destruct (column_sum_finite source_column) as [s Hs];
    [exact (Hfinite _ _ Hsource_column)|].
  eexists _, _. split; [|split; [exact Hat_total|]].
  - unfold get_observed_from_row, get_complement_from_row.
    rewrite Hrow, Hrow_total, Hsource. reflexivity.
  - simpl. rewrite Hg, Hs. unfold total, Np.sum, zero. simpl.
    f_equal. ring.
Qed.

(** ** The tables in numpy's arithmetic *)

Section MachineFacts.

Import PrimFloat.
Import Machine.

Lemma wrap_small (z : Z) : - 2 ^ 63 <= z < 2 ^ 63 -> wrap z = z.
Proof. intros Hz. unfold wrap. rewrite Z.mod_small; lia. Qed.

Lemma wrap_add_l (x y : Z) : wrap (wrap x + y) = wrap (x + y).
Proof.
  unfold wrap. f_equal.
  replace ((x + 2 ^ 63) mod 2 ^ 64 - 2 ^ 63 + y + 2 ^ 63)
    with ((x + 2 ^ 63) mod 2 ^ 64 + y) by lia.
  rewrite Zplus_mod_idemp_l. f_equal. lia.
Qed.

(** Two doubles with the same sign, mantissa and exponent are equal. *)
Lemma float_ext (x y : float) :
  FloatOps.Prim2SF x = FloatOps.Prim2SF y -> x = y.
Proof.
  intros H. rewrite <- (FloatAxioms.SF2Prim_Prim2SF x),
    <- (FloatAxioms.SF2Prim_Prim2SF y), H. reflexivity.
Qed.

Lemma add_neg_zero_l (x : float) : (neg_zero + x)%float = x.
Proof.
  apply float_ext. rewrite FloatAxioms.add_spec.
  change (FloatOps.Prim2SF neg_zero) with (SpecFloat.S754_zero true).
  destruct (FloatOps.Prim2SF x) as [[]|[]| |]; reflexivity.
Qed.

(** Two doubles that compare equal are not in strict order. *)
Lemma eqb_not_ltb (x y : float) :
  (x =? y)%float = true -> (y <? x)%float = false.
Proof.
  rewrite FloatAxioms.eqb_spec, FloatAxioms.ltb_spec.
  unfold SpecFloat.SFeqb, SpecFloat.SFltb, SpecFloat.SFcompare.
  destruct (FloatOps.Prim2SF x) as [s1|s1| |s1 m1 e1],
           (FloatOps.Prim2SF y) as [s2|s2| |s2 m2 e2];
    try destruct s1; try destruct s2; try discriminate; try reflexivity;
    (destruct (e1 ?= e2) eqn:He; try discriminate;
     apply Z.compare_eq in He; subst e2;
     destruct (Pos.compare_cont Eq m1 m2) eqn:Hm; try discriminate;
     apply Pos.compare_eq in Hm; subst m2; intros _;
     rewrite Z.compare_refl, Pos.compare_cont_refl; reflexivity).
Qed.

(** A quotient by a zero of either sign is an infinity or NaN. *)
Lemma quotient_by_zero (x y : float) (s : bool) :
  FloatOps.Prim2SF y = SpecFloat.S754_zero s -> is_finite (x / y) = false.
Proof.
  intros Hy. unfold is_finite. rewrite FloatAxioms.div_spec, Hy.
  destruct (FloatOps.Prim2SF x); reflexivity.
Qed.

Lemma is_zero_as_float (n : scalar) :
  is_zero n = true ->
  exists s, FloatOps.Prim2SF (as_float n) = SpecFloat.S754_zero s.
Proof.
  destruct n as [z|x]; cbn [is_zero as_float].
  - intros Hz. apply bool_decide_eq_true in Hz. subst z.
    exists false. vm_compute. reflexivity.
  - rewrite FloatAxioms.eqb_spec.
    change (FloatOps.Prim2SF 0) with (SpecFloat.S754_zero false).
    unfold SpecFloat.SFeqb, SpecFloat.SFcompare.
    destruct (FloatOps.Prim2SF x) as [s|[]| |[] m e]; try discriminate.
    intros _. exists s. reflexivity.
Qed.

(** A table of two rows and two columns is a table of integers or a table
    of doubles. *)
Lemma cells_table (observed : ndarray) (a b c d : scalar) :
  cells observed = [[a; b]; [c; d]] ->
  (exists za zb zc zd, observed = IntArray [[za; zb]; [zc; zd]] /\
     a = Int64 za /\ b = Int64 zb /\ c = Int64 zc /\ d = Int64 zd) \/
  (exists xa xb xc xd, observed = FloatArray [[xa; xb]; [xc; xd]] /\
     a = Float64 xa /\ b = Float64 xb /\ c = Float64 xc /\ d = Float64 xd).
Proof.
  destruct observed as [rows|rows]; cbn [cells]; intros Hcells;
    destruct rows as [|[|xa [|xb [|? ?]]] [|[|xc [|xd [|? ?]]] [|? ?]]];
    try discriminate; injection Hcells as <- <- <- <-;
    [left | right]; eexists _, _, _, _; repeat split; reflexivity.
Qed.

(** The sums of the rows, of the columns and of the whole table. *)
Lemma table_margins (observed : ndarray) (a b c d : scalar) :
  cells observed = [[a; b]; [c; d]] ->
  (forall x y, x ∈ [a; b; c; d] -> y ∈ [a; b; c; d] ->
     sum observed [x; y] = add x y) /\
  total observed = add (add (add a b) c) d.
Proof.
  intros Hcells. unfold total. rewrite Hcells.
  destruct (cells_table observed a b c d Hcells)
    as [(za & zb & zc & zd & -> & -> & -> & -> & ->)
       |(xa & xb & xc & xd & -> & -> & -> & -> & ->)].
  - split.
    + intros x y Hx Hy.
      assert (Hint : forall n, n ∈ [Int64 za; Int64 zb; Int64 zc; Int64 zd] ->
                exists z, n = Int64 z).
      { intros n Hn. repeat (apply elem_of_cons in Hn as [->|Hn]; [eauto|]).
        inversion Hn. }
      destruct (Hint x Hx) as [zx ->], (Hint y Hy) as [zy ->].
      unfold sum. cbn. rewrite wrap_add_l. reflexivity.
    + unfold sum. cbn. rewrite (wrap_add_l (0 + za) zb). reflexivity.
  - split.
    + intros x y Hx Hy.
      assert (Hfl : forall n,
                n ∈ [Float64 xa; Float64 xb; Float64 xc; Float64 xd] ->
                exists z, n = Float64 z).
      { intros n Hn. repeat (apply elem_of_cons in Hn as [->|Hn]; [eauto|]).
        inversion Hn. }
      destruct (Hfl x Hx) as [zx ->], (Hfl y Hy) as [zy ->].
      unfold sum. cbn. rewrite add_neg_zero_l. reflexivity.
    + unfold sum. cbn. rewrite add_neg_zero_l. reflexivity.
Qed.

Lemma expected_table (observed : ndarray) (a b c d : scalar) :
  cells observed = [[a; b]; [c; d]] ->
  Machine.compute_expected observed =
    Ok (FloatArray
          [[Machine.expected_at a b c d 0 0; Machine.expected_at a b c d 0 1];
           [Machine.expected_at a b c d 1 0; Machine.expected_at a b c d 1 1]]).
Proof.
  intros Hcells.
  destruct (table_margins observed a b c d Hcells) as [Hsum Htotal].
  unfold Machine.compute_expected, Machine.expected_cell, row_of, column_of.
  rewrite Hcells, Htotal. cbn [lookup list_lookup or_raise mapM mbind mret
    result_bind result_ret].
  rewrite !Hsum by (rewrite !elem_of_cons; tauto). reflexivity.
Qed.





Section Log.

Variable log : float -> float.


End Log.


(** The direction follows the computed expected count, not the margins'
    true quotient.  On the table of doubles [Tables.tied] the diagonal and
    off-diagonal products are equal, so the first observed count equals the
    true quotient; the computed expected count is one rounding below it,
    and the direction is "more". *)
Example direction_on_a_rounded_tie :
  60671751 * 20911360 = 52878560 * 23993256 /\
  (e ← Machine.compute_expected Tables.tied; Machine.item e 0 0) =
    Ok (Float64 0x1.cee3837ffffffp+25) /\
  (0x1.cee3837ffffffp+25 <? 60671751)%float = true /\
  snd <$> Machine.compute_log_likelihood_from_observed (fun x => x)
            Tables.tied = Ok "more"%string.
Proof. repeat split; vm_compute; reflexivity. Qed.

(** On the integer table whose margins wrap around, the direction is "more"
    as well: the first expected count is negative. *)
Example direction_on_a_wrapped_table :
  snd <$> Machine.compute_log_likelihood_from_observed (fun x => x)
            Tables.wrapped = Ok "more"%string.
Proof. vm_compute. reflexivity. Qed.

(** In doubles the cells of the expected table need not add up exactly to
    the total of the observed table: for [[0, 1], [2, 0]] they add up to
    the double just below 3. *)
Example expected_total_is_rounded :
  Machine.total Tables.thirds = Float64 3 /\
  (e ← Machine.compute_expected Tables.thirds; mret (Machine.total e)) =
    Ok (Float64 0x1.7ffffffffffffp+1).
Proof. split; vm_compute; reflexivity. Qed.

End MachineFacts.

(** ** The theorems at concrete inputs *)

Lemma lcg_next_below_range (bound g : Z) :
  0 < bound -> 0 <= (lcg_next_below bound g).1 < bound.
Proof. intros Hbound. simpl. apply Z.mod_pos_bound. exact Hbound. Qed.

Lemma resample_fails_iff_empty_and_positive_witness :
  resample lcg_next_below (@nil float64) 0 7 = Ok ([], 7) /\
  (raises (resample lcg_next_below (@nil float64) 3 7) <->
     @nil float64 = [] /\ 0 < 3) /\
  (raises (resample lcg_next_below (@nil float64) 3 7) ->
     resample lcg_next_below (@nil float64) 3 7 = Raise ValueError).
Proof.
  apply (resample_fails_iff_empty_and_positive
           lcg_next_below lcg_next_below_range (@nil float64) 3 7).
  lia.
Defined.

Lemma resample_length_and_elements_witness :
  exists out g',
    resample lcg_next_below Data.ones 4 7 = Ok (out, g') /\
    len out = 4 /\
    Forall (fun x => x ∈ Data.ones /\
              exists i, 0 <= i < len Data.ones /\ getitem Data.ones i = Ok x)
      out.
Proof.
  apply (resample_length_and_elements
           lcg_next_below lcg_next_below_range Data.ones 4 7).
  - discriminate.
  - lia.
Defined.

Lemma every_trial_follows_ratio_rule_witness :
  exists vs p_value ratios signs g',
    two_sample_bootstrap_test lcg_next_below Data.ones Data.zeros Data.mean 100 7 =
      Ok ((p_value, [ratios; signs]), g') /\
    len vs = 100 /\
    Forall (trial_stats Data.ones Data.zeros Data.mean) vs /\
    forall (k : nat) (v1 v2 : float64), vs !! k = Some (v1, v2) ->
      ratios !! k = Some (ratio_rule v1 v2).1 /\
      signs !! k = Some (of_int (ratio_rule v1 v2).2) /\
      ratio_rule v1 v2 =
        if Np.gt v2 zero
        then (Np.div v1 v2, if Np.gt (Np.div v1 v2) one then 1 else 0)
        else (if Np.gt v1 zero then PInf else zero,
              if Np.gt v1 zero then 1 else 0).
Proof.
  apply (every_trial_follows_ratio_rule
           lcg_next_below lcg_next_below_range Data.ones Data.zeros Data.mean 100 7).
  lia.
Defined.


(** Every resample of the zeros has mean zero. *)
Lemma mean_of_zeros (r2 : list float64) :
  drawn_from Data.zeros r2 -> Data.mean r2 = zero.
Proof.
  intros [Hlen Hall].
  assert (Hzero : Forall (fun x => x = Data.f 0) r2).
  { eapply Forall_impl; [exact Hall|]. intros x Hx. unfold Data.zeros in Hx.
    repeat (apply elem_of_cons in Hx as [->|Hx]; [reflexivity|]).
    inversion Hx. }
  destruct r2 as [|x1 [|x2 [|x3 [|x4 [|x5 [|x6 r2]]]]]]; try discriminate.
  repeat (apply Forall_cons in Hzero as [-> Hzero]).
  unfold zero. vm_compute. f_equal. apply Qc_is_canon. reflexivity.
Qed.

Lemma mean_of_zeros_not_positive (r2 : list float64) :
  drawn_from Data.zeros r2 -> Np.gt (Data.mean r2) zero = false.
Proof. intros Hdrawn. rewrite (mean_of_zeros r2 Hdrawn). apply gt_irrefl. Qed.

Lemma zero_trials_raise_zero_denominators_do_not_witness :
  two_sample_bootstrap_test lcg_next_below Data.ones Data.zeros Data.mean 0 7 =
    Raise ZeroDivisionError /\
  ~ raises (two_sample_bootstrap_test lcg_next_below Data.ones Data.zeros
              Data.mean 100 7) /\
  exists p_value ratios signs g',
    two_sample_bootstrap_test lcg_next_below Data.ones Data.zeros Data.mean
      100 7 = Ok ((p_value, [ratios; of_int <$> signs]), g') /\
    len ratios = 100 /\
    Forall2 (fun ratio sign =>
               exists r1, drawn_from Data.ones r1 /\
                 ratio = (if Np.gt (Data.mean r1) zero then PInf else zero) /\
                 sign = (if Np.gt (Data.mean r1) zero then 1 else 0))
      ratios signs /\
    ((forall r1, drawn_from Data.ones r1 ->
        Np.gt (Data.mean r1) zero = true) ->
     Forall (fun ratio => ratio = PInf) ratios /\
     Forall (fun sign => sign = 1) signs).
Proof.
  destruct (zero_trials_raise_zero_denominators_do_not
              lcg_next_below lcg_next_below_range Data.ones Data.zeros
              Data.mean 100 7) as (Hfail & Hruns & Hdegenerate).
  - lia.
  - split; [exact Hfail|]. split; [exact Hruns|].
    apply Hdegenerate. exact mean_of_zeros_not_positive.
Defined.


Lemma observed_cells_sum_to_grand_total_witness :
  exists observed at_total,
    get_observed_from_row Data.first_row "crime"%string Data.totals =
      Ok observed /\
    Data.totals !! "Total"%string = Some at_total /\
    total observed = target_freq at_total.
Proof.
  apply (observed_cells_sum_to_grand_total
           Data.keyword_cat_freq Data.totals Data.first_row "crime"%string
           (Q2Qc (inject_Z 50)) (Q2Qc (inject_Z 60))).
  - unfold Data.keyword_cat_freq.
    repeat (apply map_Forall_insert_2;
            [repeat (first [apply Forall_nil_2 | apply Forall_cons_2]);
             reflexivity|]).
    apply map_Forall_empty.
  - vm_compute. reflexivity.
  - eexists. vm_compute. reflexivity.
  - reflexivity.
  - reflexivity.
Defined.

(** ** Runs of the model *)

(** The specification's end-to-end example: five ones against five zeros
    under the mean, 100 trials.  Every ratio is infinite, every sign is 1,
    and the p-value is 1. *)
Example end_to_end_example :
  match two_sample_bootstrap_test lcg_next_below Data.ones Data.zeros Data.mean
          100 7 with
  | Ok ((p_value, [ratios; signs]), _) =>
      bool_decide (p_value = one)
      && forallb (fun r => bool_decide (r = PInf)) ratios
      && forallb (fun s => bool_decide (s = one)) signs
      && bool_decide (length ratios = 100%nat)
      && bool_decide (length signs = 100%nat)
  | _ => false
  end = true.
Proof. vm_compute. reflexivity. Qed.

(** A single trial gives a p-value of 0 or 1. *)
Example single_trial_example :
  match two_sample_bootstrap_test lcg_next_below
          [Data.f 1; Data.f 2; Data.f 3] [Data.f 2; Data.f 2] Data.mean 1 11 with
  | Ok ((p_value, [[ratio]; [sign]]), _) =>
      bool_decide (p_value = sign)
      && (bool_decide (sign = zero) || bool_decide (sign = one))
  | _ => false
  end = true.
Proof. vm_compute. reflexivity. Qed.

(** An empty sample can be resampled to its own length, and the test runs on
    it; only a positive length is refused. *)
Example empty_sample_example :
  resample lcg_next_below (@nil float64) (len (@nil float64)) 7 = Ok ([], 7) /\
  resample lcg_next_below (@nil float64) 1 7 = Raise ValueError /\
  resample lcg_next_below Data.ones (-1) 7 = Raise ValueError.
Proof. repeat split. Qed.

(** The totals of the example frequency table: the grand total is 100, 60 of
    it in the first category. *)
Example category_totals_example :
  match Data.totals !! "crime"%string, Data.totals !! "Total"%string with
  | Some at_crime, Some at_total =>
      bool_decide (target_freq at_crime = Data.f 60)
      && bool_decide (ref_freq at_crime = Data.f 40)
      && bool_decide (target_freq at_total = Data.f 100)
      && bool_decide (ref_freq at_total = Data.f 0)
  | _, _ => false
  end = true.
Proof. vm_compute. reflexivity. Qed.

(** The observed table of the first keyword for the first category, and the
    expected table of it. *)
Example observed_example :
  match get_observed_from_row Data.first_row "crime"%string Data.totals with
  | Ok observed =>
      bool_decide (observed = [[Data.f 50; Data.f 10]; [Data.f 10; Data.f 30]])
      && bool_decide (compute_expected observed =
                        Ok [[Data.f 36; Data.f 24]; [Data.f 24; Data.f 16]])
  | Raise _ => false
  end = true.
Proof. vm_compute. reflexivity. Qed.

(** A category that the totals do not hold, or a row without its total, is a
    [KeyError]. *)
Example missing_key_example :
  get_observed_from_row Data.first_row "poetry"%string Data.totals =
    Raise KeyError /\
  get_observed_from_row (delete "Total"%string Data.first_row)
    "crime"%string Data.totals = Raise KeyError /\
  compute_category_totals (delete "Total"%string Data.keyword_cat_freq) =
    Raise KeyError.
Proof. repeat split; vm_compute; reflexivity. Qed.

(** The direction on three tables, whatever the logarithm: a first cell
    above its expected count 36, a first cell equal to its expected count 1,
    and the table of zeros, whose expected counts are NaN. *)
Example direction_example (log : float64 -> float64) :
  snd <$> compute_log_likelihood_from_observed log
            [[Data.f 50; Data.f 10]; [Data.f 10; Data.f 30]] =
    Ok "more"%string /\
  snd <$> compute_log_likelihood_from_observed log
            [[Data.f 1; Data.f 1]; [Data.f 1; Data.f 1]] = Ok "less"%string /\
  snd <$> compute_log_likelihood_from_observed log
            [[Data.f 0; Data.f 0]; [Data.f 0; Data.f 0]] = Ok "less"%string /\
  compute_expected [[Data.f 0; Data.f 0]; [Data.f 0; Data.f 0]] =
    Ok [[NaN; NaN]; [NaN; NaN]].
Proof.
  rewrite !log_likelihood_on_table.
  repeat split; vm_compute; reflexivity.
Qed.

(** * Further properties of bootstrap.py *)

(** ** What the draws depend on *)

Section BootstrapState.

Context {rng : Type} (next_below : Z -> rng -> Z * rng).

Lemma M_bind_unfold {A B : Type} (m : M rng A) (f : A -> M rng B) g :
  (m ≫= f) g =
    match m g with
    | Ok (a, g') => f a g'
    | Raise e => Raise e
    end.
Proof. reflexivity. Qed.

Lemma getitem_shape {A B : Type} (a : list A) (b : list B) (i : Z) :
  length a = length b ->
  (fun _ => tt) <$> getitem a i = (fun _ => tt) <$> getitem b i.
Proof.
  intros Hlen. unfold getitem, len. rewrite Hlen.
  destruct ((i <? - Z.of_nat (length b)) || (Z.of_nat (length b) <=? i));
    [reflexivity|].
  set (k := Z.to_nat _).
  destruct (a !! k) as [x|] eqn:Ha; destruct (b !! k) as [y|] eqn:Hb;
    try reflexivity.
  - apply lookup_lt_Some in Ha. apply lookup_ge_None in Hb. lia.
  - apply lookup_lt_Some in Hb. apply lookup_ge_None in Ha. lia.
Qed.

Lemma take_shape {A B : Type} (a : list A) (b : list B) (index : list Z) :
  length a = length b ->
  (fun _ => tt) <$> take a index = (fun _ => tt) <$> take b index.
Proof.
  intros Hlen. unfold take.
  induction index as [|i index IH]; [reflexivity|].
  cbn [mapM].
  pose proof (getitem_shape a b i Hlen) as Hi.
  destruct (getitem a i) as [x|e]; destruct (getitem b i) as [y|e'];
    try discriminate; [|exact Hi].
  cbn.
  destruct (mapM (getitem a) index); destruct (mapM (getitem b) index);
    try discriminate; [reflexivity | exact IH].
Qed.

(** Whether a resample succeeds, and the state it leaves the random source
    in, depend on the length of the sample only. *)
Lemma resample_state {A B : Type} (a : list A) (b : list B)
    (resample_length : Z) g :
  length a = length b ->
  snd <$> resample next_below a resample_length g =
  snd <$> resample next_below b resample_length g.
Proof.
  intros Hlen. unfold resample, len. rewrite Hlen.
  unfold mbind, M_bind.
  destruct (randint next_below 0 (Z.of_nat (length b)) resample_length g)
    as [[index g']|e]; [|reflexivity].
  unfold pure_step.
  pose proof (take_shape a b index Hlen) as Hshape.
  destruct (take a index); destruct (take b index);
    cbn in Hshape |- *; try discriminate; [reflexivity | congruence].
Qed.

Lemma trials_lengths (sample1 sample2 : list float64)
    (stat_func : list float64 -> float64) (n : nat) :
  forall stats signs g out1 out2 g',
    trials next_below sample1 sample2 stat_func n stats signs g =
      Ok ((out1, out2), g') ->
    length out1 = (length stats + n)%nat /\
    length out2 = (length signs + n)%nat.
Proof.
  induction n as [|n IH]; intros stats signs g out1 out2 g'.
  - cbn. intros [= <- <- _]. lia.
  - cbn [trials]. rewrite M_bind_unfold.
    destruct (resample next_below sample1 (len sample1) g) as [[r1 g1]|e1];
      [|discriminate].
    rewrite M_bind_unfold.
    destruct (resample next_below sample2 (len sample2) g1) as [[r2 g2]|e2];
      [|discriminate].
    cbv beta zeta. rewrite M_bind_unfold. unfold pure_step at 1.
    rewrite trial_pair.
    destruct (ratio_rule (stat_func r1) (stat_func r2)) as [stat sign].
    intros Hrun. apply IH in Hrun. rewrite !length_app in Hrun. cbn in Hrun.
    lia.
Qed.

Lemma trials_state (sample1 sample1' sample2 sample2' : list float64)
    (stat_func stat_func' : list float64 -> float64) (n : nat) :
  length sample1 = length sample1' ->
  length sample2 = length sample2' ->
  forall g stats signs stats' signs',
    snd <$> trials next_below sample1 sample2 stat_func n stats signs g =
    snd <$> trials next_below sample1' sample2' stat_func' n stats' signs' g.
Proof.
  intros Hlen1 Hlen2.
  assert (Hl1 : len sample1' = len sample1) by (unfold len; lia).
  assert (Hl2 : len sample2' = len sample2) by (unfold len; lia).
  induction n as [|n IH]; intros g stats signs stats' signs'.
  - reflexivity.
  - cbn [trials]. rewrite Hl1, Hl2, !M_bind_unfold.
    pose proof (resample_state sample1 sample1' (len sample1) g Hlen1) as H1.
    destruct (resample next_below sample1 (len sample1) g) as [[r1 g1]|e1];
      destruct (resample next_below sample1' (len sample1) g)
        as [[r1' g1']|e1'];
      cbn in H1 |- *; try discriminate; [|congruence].
    injection H1 as <-. cbv beta. rewrite !M_bind_unfold.
    pose proof (resample_state sample2 sample2' (len sample2) g1 Hlen2) as H2.
    destruct (resample next_below sample2 (len sample2) g1) as [[r2 g2]|e2];
      destruct (resample next_below sample2' (len sample2) g1)
        as [[r2' g2']|e2'];
      cbn in H2 |- *; try discriminate; [|congruence].
    injection H2 as <-. cbv beta zeta. rewrite !M_bind_unfold.
    unfold pure_step at 1 2. rewrite !trial_pair.
    destruct (ratio_rule (stat_func r1) (stat_func r2)) as [stat sign].
    destruct (ratio_rule (stat_func' r1') (stat_func' r2')) as [stat' sign'].
    apply IH.
Qed.

(** The random source is consumed the same way whatever the values of the
    samples and whatever the statistic: two runs on samples of the same
    lengths, from the same random state, both raise or both return, and they
    leave the random source in the same state. *)
Theorem draws_ignore_values_and_statistic
    (sample1 sample1' sample2 sample2' : list float64)
    (stat_func stat_func' : list float64 -> float64) (num_samples : Z) g :
  length sample1 = length sample1' ->
  length sample2 = length sample2' ->
  snd <$> two_sample_bootstrap_test next_below sample1 sample2 stat_func
            num_samples g =
  snd <$> two_sample_bootstrap_test next_below sample1' sample2' stat_func'
            num_samples g.
Proof.
  intros Hlen1 Hlen2. unfold two_sample_bootstrap_test.
  rewrite !M_bind_unfold.
  pose proof (trials_state sample1 sample1' sample2 sample2'
                stat_func stat_func' (Z.to_nat num_samples) Hlen1 Hlen2
                g [] [] [] []) as Hstate.
  destruct (trials next_below sample1 sample2 stat_func _ [] [] g)
    as [[[stats signs] g1]|e] eqn:Hrun;
    destruct (trials next_below sample1' sample2' stat_func' _ [] [] g)
      as [[[stats' signs'] g1']|e'] eqn:Hrun';
    cbn in Hstate |- *; try discriminate; [|congruence].
  injection Hstate as <-.
  apply trials_lengths in Hrun as [_ Hsigns].
  apply trials_lengths in Hrun' as [_ Hsigns'].
  rewrite !M_bind_unfold. unfold pure_step, int_truediv, len.
  rewrite Hsigns, Hsigns'.
  destruct (Z.of_nat (length [] + Z.to_nat num_samples) =? 0); reflexivity.
Qed.

End BootstrapState.

(** ** Outcomes of the test *)

Lemma ratio_rule_sign_of_ratio (v1 v2 : float64) :
  (ratio_rule v1 v2).2 = if Np.gt (ratio_rule v1 v2).1 one then 1 else 0.
Proof.
  unfold ratio_rule.
  destruct (Np.gt v2 zero); [reflexivity|].
  destruct (Np.gt v1 zero); reflexivity.
Qed.

Lemma Qc_ratio_above_one (a b : Qc) :
  ~ (0 < a)%Qc -> (0 < b)%Qc -> ~ (1 < a / b)%Qc.
Proof.
  intros Ha Hb Hlt.
  apply (Qcmult_lt_mono_pos_r _ _ b Hb) in Hlt.
  replace (a / b * b)%Qc with a in Hlt.
  - rewrite Qcmult_1_l in Hlt. apply Ha.
    eapply Qclt_trans; [exact Hb | exact Hlt].
  - field. intros ->. apply Qclt_not_eq in Hb. congruence.
Qed.

(** A first statistic that is not positive never gives sign 1. *)
Lemma ratio_rule_not_positive (v1 v2 : float64) :
  Np.gt v1 zero = false -> (ratio_rule v1 v2).2 = 0.
Proof.
  intros Hv1. unfold ratio_rule. rewrite Hv1.
  destruct (Np.gt v2 zero) eqn:Hv2; [|reflexivity].
  cbn [snd].
  destruct (Np.gt (Np.div v1 v2) one) eqn:Hratio; [|reflexivity].
  exfalso.
  destruct v1 as [a| | |], v2 as [b| | |]; simpl in *; try discriminate.
  - apply bool_decide_eq_false in Hv1. apply bool_decide_eq_true in Hv2.
    destruct (decide (b = 0%Qc)) as [->|_].
    + apply Qclt_not_eq in Hv2. congruence.
    + simpl in Hratio. apply bool_decide_eq_true in Hratio.
      exact (Qc_ratio_above_one a b Hv1 Hv2 Hratio).
  - apply bool_decide_eq_true in Hv2.
    destruct (decide (b < 0)%Qc) as [Hneg|_]; [|discriminate].
    apply (Qclt_trans _ _ _ Hneg) in Hv2. apply Qclt_not_eq in Hv2.
    congruence.
Qed.

Lemma fmap_constant {A B : Type} (f : A -> B) (c : B) (l : list A) :
  Forall (fun x => f x = c) l -> f <$> l = replicate (length l) c.
Proof.
  induction 1 as [|x l Hx _ IH]; [reflexivity|].
  cbn. rewrite Hx, IH. reflexivity.
Qed.

Lemma sum_int_replicate (n : nat) (s : Z) :
  sum_int (replicate n s) = Z.of_nat n * s.
Proof.
  induction n as [|n IH].
  - reflexivity.
  - unfold sum_int. cbn [replicate fold_left]. rewrite sum_int_app, IH. lia.
Qed.

Lemma Qc_of_Z_nonzero (n : Z) : n <> 0 -> Q2Qc (inject_Z n) <> 0%Qc.
Proof.
  intros Hn Heq. apply Hn.
  apply Q2Qc_eq_iff in Heq. unfold Qeq in Heq. simpl in Heq. lia.
Qed.

Section BootstrapOutcomes.

Context {rng : Type} (next_below : Z -> rng -> Z * rng).

Hypothesis next_below_range :
  forall bound g, 0 < bound -> 0 <= (next_below bound g).1 < bound.

(** The test raises exactly when the number of trials is zero or negative
    (a negative count runs no trial, like zero), and then it is always the
    [ZeroDivisionError] of the final division. *)
Theorem test_raises_iff_no_trial (sample1 sample2 : list float64)
    (stat_func : list float64 -> float64) (num_samples : Z) g :
  (raises (two_sample_bootstrap_test next_below sample1 sample2 stat_func
             num_samples g) <-> num_samples <= 0) /\
  (num_samples <= 0 ->
   two_sample_bootstrap_test next_below sample1 sample2 stat_func
     num_samples g = Raise ZeroDivisionError).
Proof.
  assert (Hfail : num_samples <= 0 ->
    two_sample_bootstrap_test next_below sample1 sample2 stat_func
      num_samples g = Raise ZeroDivisionError).
  { intros Hn. unfold two_sample_bootstrap_test.
    replace (Z.to_nat num_samples) with 0%nat by lia. reflexivity. }
  split; [split|exact Hfail].
  - intros Hraise.
    destruct (Z_le_gt_dec num_samples 0) as [Hle|Hgt]; [exact Hle|].
    destruct (test_run next_below next_below_range sample1 sample2 stat_func
                num_samples g) as (vs & g' & Hrun & _); [lia|].
    cbv zeta in Hrun. rewrite Hrun in Hraise. contradiction.
  - intros Hn. rewrite (Hfail Hn). exact I.
Qed.

(** In the returned array the row of signs is read off the row of ratios:
    at every trial the sign is 1 when the recorded ratio is greater than 1
    and 0 otherwise, in the degenerate branch as well (an infinite ratio
    goes with sign 1, the ratio 0 with sign 0). *)
Theorem sign_row_follows_ratio_row (sample1 sample2 : list float64)
    (stat_func : list float64 -> float64) (num_samples : Z) g :
  1 <= num_samples ->
  exists p_value ratios signs g',
    two_sample_bootstrap_test next_below sample1 sample2 stat_func
      num_samples g = Ok ((p_value, [ratios; signs]), g') /\
    signs = (fun ratio => if Np.gt ratio one then one else zero) <$> ratios.
Proof.
  intros Hn.
  destruct (test_run next_below next_below_range sample1 sample2 stat_func
              num_samples g Hn) as (vs & g' & Hrun & _).
  cbv zeta in Hrun.
  eexists _, _, _, g'. split; [exact Hrun|].
  rewrite <- !list_fmap_compose.
  apply list_fmap_ext. intros k [v1 v2] _. cbn.
  rewrite ratio_rule_sign_of_ratio.
  destruct (Np.gt (ratio_rule v1 v2).1 one); reflexivity.
Qed.

(** When the statistic is positive on every resample of the first sample and
    not positive on any resample of the second, every trial records an
    infinite ratio with sign 1 and the p-value is 1. *)
Theorem p_value_one_when_second_never_positive
    (sample1 sample2 : list float64)
    (stat_func : list float64 -> float64) (num_samples : Z) g :
  1 <= num_samples ->
  (forall r1, drawn_from sample1 r1 -> Np.gt (stat_func r1) zero = true) ->
  (forall r2, drawn_from sample2 r2 -> Np.gt (stat_func r2) zero = false) ->
  exists g',
    two_sample_bootstrap_test next_below sample1 sample2 stat_func
      num_samples g =
      Ok ((one, [replicate (Z.to_nat num_samples) PInf;
                 replicate (Z.to_nat num_samples) one]), g').
Proof.
  intros Hn Hfirst Hsecond.
  destruct (test_run next_below next_below_range sample1 sample2 stat_func
              num_samples g Hn) as (vs & g' & Hrun & Hlen & Hall).
  cbv zeta in Hrun. exists g'. rewrite Hrun.
  assert (Hrule : Forall (fun v => ratio_rule v.1 v.2 = (PInf, 1)) vs).
  { eapply Forall_impl; [exact Hall|].
    intros [v1 v2] (r1 & r2 & Hd1 & Hd2 & Hv1 & Hv2). simpl in *.
    unfold ratio_rule.
    rewrite Hv2, (Hsecond r2 Hd2), Hv1, (Hfirst r1 Hd1). reflexivity. }
  assert (Hcount : length vs = Z.to_nat num_samples) by (unfold len in Hlen; lia).
  rewrite (fmap_constant (fun v => (ratio_rule v.1 v.2).1) PInf vs),
          (fmap_constant (fun v => (ratio_rule v.1 v.2).2) 1 vs).
  - rewrite Hcount, sum_int_replicate, fmap_replicate.
    replace (Z.of_nat (Z.to_nat num_samples) * 1) with num_samples by lia.
    repeat f_equal. unfold Qcdiv. apply Qcmult_inv_r.
    apply Qc_of_Z_nonzero. lia.
  - eapply Forall_impl; [exact Hrule|]. intros v ->. reflexivity.
  - eapply Forall_impl; [exact Hrule|]. intros v ->. reflexivity.
Qed.

(** When the statistic is not positive on any resample of the first sample,
    every sign is 0 and the p-value is 0, whatever the second sample is. *)
Theorem p_value_zero_when_first_never_positive
    (sample1 sample2 : list float64)
    (stat_func : list float64 -> float64) (num_samples : Z) g :
  1 <= num_samples ->
  (forall r1, drawn_from sample1 r1 -> Np.gt (stat_func r1) zero = false) ->
  exists ratios g',
    two_sample_bootstrap_test next_below sample1 sample2 stat_func
      num_samples g =
      Ok ((zero, [ratios; replicate (Z.to_nat num_samples) zero]), g').
Proof.
  intros Hn Hfirst.
  destruct (test_run next_below next_below_range sample1 sample2 stat_func
              num_samples g Hn) as (vs & g' & Hrun & Hlen & Hall).
  cbv zeta in Hrun. eexists _, g'. rewrite Hrun.
  assert (Hcount : length vs = Z.to_nat num_samples) by (unfold len in Hlen; lia).
  rewrite (fmap_constant (fun v => (ratio_rule v.1 v.2).2) 0 vs).
  - rewrite Hcount, sum_int_replicate, fmap_replicate.
    replace (Z.of_nat (Z.to_nat num_samples) * 0) with 0 by lia.
    repeat f_equal. unfold Qcdiv. apply Qcmult_0_l.
  - eapply Forall_impl; [exact Hall|].
    intros [v1 v2] (r1 & r2 & Hd1 & _ & Hv1 & _). simpl in *.
    apply ratio_rule_not_positive. rewrite Hv1. exact (Hfirst r1 Hd1).
Qed.

End BootstrapOutcomes.

(** * Further properties of keyness.py *)

(** ** The expected table *)

Lemma Qc_pos_nonzero (n : Qc) : (0 < n)%Qc -> n <> 0%Qc.
Proof. intros Hpos ->. apply Qclt_not_eq in Hpos. congruence. Qed.

(** ** Tables of another shape *)

Lemma column_of_ok_iff (a : ndarray) (j : nat) :
  (exists c, column_of a j = Ok c) <-> Forall (fun r => (j < length r)%nat) a.
Proof.
  unfold column_of.
  induction a as [|r a IH].
  - split; [constructor | exists []; reflexivity].
  - cbn [mapM]. split.
    + intros [c Hc].
      destruct (r !! j) as [x|] eqn:Hx; [|discriminate].
      cbn in Hc.
      destruct (mapM _ a) as [c'|e] eqn:Hrest; [|discriminate].
      constructor.
      * apply lookup_lt_Some in Hx. exact Hx.
      * apply IH. exists c'. reflexivity.
    + intros Hall. apply Forall_cons in Hall as [Hr Hall].
      destruct (lookup_lt_is_Some_2 r j Hr) as [x Hx].
      apply IH in Hall as [c' Hc']. rewrite Hx. cbn. rewrite Hc'.
      eexists. reflexivity.
Qed.

Lemma column_of_error (a : ndarray) (j : nat) (e : exn) :
  column_of a j = Raise e -> e = IndexError.
Proof.
  unfold column_of.
  induction a as [|r a IH]; [discriminate|].
  cbn [mapM].
  destruct (r !! j) as [x|]; cbn; [|congruence].
  destruct (mapM _ a) as [c'|e']; cbn; [discriminate|].
  intros [= <-]. apply IH. reflexivity.
Qed.

Lemma expected_cell_ok_iff (observed : ndarray) (i j : nat) :
  (exists x, expected_cell observed i j = Ok x) <->
  (i < length observed)%nat /\ Forall (fun r => (j < length r)%nat) observed.
Proof.
  unfold expected_cell, row_of. rewrite <- column_of_ok_iff.
  unfold ndarray in *. split.
  - intros [x Hx].
    destruct (observed !! i) as [r|] eqn:Hr; [|discriminate].
    cbn in Hx. destruct (column_of observed j) as [c|e]; [|discriminate].
    split; [apply lookup_lt_Some in Hr; exact Hr | eexists; reflexivity].
  - intros [Hi [c Hc]].
    destruct (lookup_lt_is_Some_2 observed i Hi) as [r Hr].
    eexists. rewrite Hr. cbn. rewrite Hc. reflexivity.
Qed.

Lemma expected_cell_error (observed : ndarray) (i j : nat) (e : exn) :
  expected_cell observed i j = Raise e -> e = IndexError.
Proof.
  unfold expected_cell, row_of.
  destruct (observed !! i) as [r|]; cbn; [|congruence].
  destruct (column_of observed j) as [c|e'] eqn:Hc; cbn; [discriminate|].
  intros [= <-]. exact (column_of_error _ _ _ Hc).
Qed.

Lemma compute_expected_accepts (observed : ndarray) :
  at_least_2x2 observed ->
  exists e00 e01 e10 e11,
    compute_expected observed = Ok [[e00; e01]; [e10; e11]].
Proof.
  intros [Hrows Hall]. unfold compute_expected.
  assert (Hcol : forall j, (j < 2)%nat ->
            Forall (fun r => (j < length r)%nat) observed).
  { intros j Hj. eapply Forall_impl; [exact Hall|]. cbn. lia. }
  destruct (proj2 (expected_cell_ok_iff observed 0 0)) as [e00 H00];
    [split; [lia | apply Hcol; lia]|].
  destruct (proj2 (expected_cell_ok_iff observed 0 1)) as [e01 H01];
    [split; [lia | apply Hcol; lia]|].
  destruct (proj2 (expected_cell_ok_iff observed 1 0)) as [e10 H10];
    [split; [lia | apply Hcol; lia]|].
  destruct (proj2 (expected_cell_ok_iff observed 1 1)) as [e11 H11];
    [split; [lia | apply Hcol; lia]|].
  exists e00, e01, e10, e11. rewrite H00, H01, H10, H11. reflexivity.
Qed.

Lemma compute_expected_returns (observed e : ndarray) :
  compute_expected observed = Ok e ->
  at_least_2x2 observed /\
  exists e00 e01 e10 e11, e = [[e00; e01]; [e10; e11]].
Proof.
  unfold compute_expected.
  destruct (expected_cell observed 0 0) as [e00|]; [cbn|discriminate].
  destruct (expected_cell observed 0 1) as [e01|]; [cbn|discriminate].
  destruct (expected_cell observed 1 0) as [e10|]; [cbn|discriminate].
  destruct (expected_cell observed 1 1) as [e11|] eqn:H11; [cbn|discriminate].
  intros [= <-]. split; [|eexists _, _, _, _; reflexivity].
  destruct (proj1 (expected_cell_ok_iff observed 1 1)) as [Hrows Hall];
    [eexists; exact H11|].
  split; [lia | exact Hall].
Qed.

Lemma compute_expected_error (observed : ndarray) (e : exn) :
  compute_expected observed = Raise e -> e = IndexError.
Proof.
  unfold compute_expected.
  destruct (expected_cell observed 0 0) as [e00|x] eqn:H00; cbn;
    [|intros [= <-]; exact (expected_cell_error _ _ _ _ H00)].
  destruct (expected_cell observed 0 1) as [e01|x] eqn:H01; cbn;
    [|intros [= <-]; exact (expected_cell_error _ _ _ _ H01)].
  destruct (expected_cell observed 1 0) as [e10|x] eqn:H10; cbn;
    [|intros [= <-]; exact (expected_cell_error _ _ _ _ H10)].
  destruct (expected_cell observed 1 1) as [e11|x] eqn:H11; cbn;
    [discriminate|intros [= <-]; exact (expected_cell_error _ _ _ _ H11)].
Qed.

(** [compute_expected] accepts exactly the arrays with at least two rows and
    two columns, whatever is in them; every other array is an [IndexError].
    What it returns has two rows of two cells, also for a larger array. *)
Theorem compute_expected_accepts_iff_2x2 (observed : ndarray) :
  ((exists e, compute_expected observed = Ok e) <-> at_least_2x2 observed) /\
  (forall e, compute_expected observed = Ok e ->
     exists e00 e01 e10 e11, e = [[e00; e01]; [e10; e11]]) /\
  (forall e, compute_expected observed = Raise e -> e = IndexError).
Proof.
  split; [split|split].
  - intros [e He]. exact (proj1 (compute_expected_returns _ _ He)).
  - intros Hshape.
    destruct (compute_expected_accepts observed Hshape)
      as (e00 & e01 & e10 & e11 & He).
    eexists. exact He.
  - intros e He. exact (proj2 (compute_expected_returns _ _ He)).
  - apply compute_expected_error.
Qed.

(** The score accepts the same arrays: with at least two rows and two
    columns [compute_log_likelihood_from_observed] returns a score and a
    direction whatever the cells hold (zeros, infinities or NaN included),
    and on any other array it raises [IndexError]. *)
Theorem log_likelihood_accepts_iff_2x2
    (log : float64 -> float64) (observed : ndarray) :
  ((exists r, compute_log_likelihood_from_observed log observed = Ok r) <->
     at_least_2x2 observed) /\
  (forall e, compute_log_likelihood_from_observed log observed = Raise e ->
     e = IndexError).
Proof.
  unfold compute_log_likelihood_from_observed.
  destruct (compute_expected observed) as [expected|x] eqn:Hexp; cbn.
  - destruct (compute_expected_returns _ _ Hexp)
      as [Hshape (e00 & e01 & e10 & e11 & ->)].
    pose proof Hshape as [Hrows Hall].
    destruct observed as [|[|a [|b r0]] [|[|c [|d r1]] rest]];
      cbn in Hrows; try lia;
      repeat match goal with
             | H : Forall _ (_ :: _) |- _ => apply Forall_cons in H as [? H]
             end;
      cbn in *; try lia.
    split; [split; [intros _; exact Hshape | intros _; eexists; reflexivity]|].
    intros e He. discriminate.
  - split; [split|].
    + intros [r Hr]. discriminate.
    + intros Hshape.
      destruct (compute_expected_accepts observed Hshape)
        as (e00 & e01 & e10 & e11 & He).
      congruence.
    + intros e [= <-]. exact (compute_expected_error _ _ Hexp).
Qed.

(** ** Rows and totals *)

(** [get_observed_from_row] raises exactly when the row lacks the category
    or its ["Total"], or the totals lack the category; it is then a
    [KeyError].  Otherwise it returns a table of two rows and two columns,
    whatever the counts are. *)
Theorem get_observed_raises_iff_key_missing (row : gmap string float64)
    (source : string) (totals : gmap string totals_row) :
  (raises (get_observed_from_row row source totals) <->
     row !! source = None \/ row !! "Total"%string = None \/
     totals !! source = None) /\
  (forall e, get_observed_from_row row source totals = Raise e ->
     e = KeyError) /\
  (forall observed, get_observed_from_row row source totals = Ok observed ->
     exists a b c d, observed = [[a; b]; [c; d]]).
Proof.
  unfold get_observed_from_row, get_complement_from_row.
  destruct (row !! source) as [t_target|]; cbn;
    [|split; [split; [intros _; auto | intros _; exact I]|];
      split; [intros e [= <-]; reflexivity | intros o Ho; discriminate]].
  destruct (row !! "Total"%string) as [row_total|]; cbn;
    [|split; [split; [intros _; auto | intros _; exact I]|];
      split; [intros e [= <-]; reflexivity | intros o Ho; discriminate]].
  destruct (totals !! source) as [at_source|]; cbn;
    [|split; [split; [intros _; auto | intros _; exact I]|];
      split; [intros e [= <-]; reflexivity | intros o Ho; discriminate]].
  split; [split|split].
  - intros [].
  - intros [H|[H|H]]; discriminate.
  - intros e He. discriminate.
  - intros o [= <-]. eexists _, _, _, _. reflexivity.
Qed.

(** The observed table keeps the margins it is built from: for finite
    counts its first row adds up to the row's ["Total"], its first column to
    the category's target frequency and its second column to the category's
    reference frequency. *)
Theorem observed_table_margins (row : gmap string float64) (source : string)
    (totals : gmap string totals_row) (t_target row_total target ref : Qc) :
  row !! source = Some (Fin t_target) ->
  row !! "Total"%string = Some (Fin row_total) ->
  totals !! source =
    Some {| target_freq := Fin target; ref_freq := Fin ref |} ->
  exists observed,
    get_observed_from_row row source totals = Ok observed /\
    Np.sum <$> row_of observed 0 = Ok (Fin row_total) /\
    Np.sum <$> column_of observed 0 = Ok (Fin target) /\
    Np.sum <$> column_of observed 1 = Ok (Fin ref).
Proof.
  intros Hsource Htotal Htotals.
  unfold get_observed_from_row, get_complement_from_row.
  rewrite Hsource, Htotal, Htotals. cbn.
  eexists. split; [reflexivity|].
  unfold Np.sum. cbn. repeat split; do 2 f_equal; ring.
Qed.

(** [compute_log_likelihood_from_row] fails on a missing key and on nothing
    else: it raises [KeyError] exactly when the row lacks the category or
    its ["Total"], or the totals lack the category, and returns a score for
    every other input, zero totals included. *)
Theorem row_score_raises_iff_key_missing (log : float64 -> float64)
    (row : gmap string float64) (source : string)
    (totals : gmap string totals_row) :
  (raises (compute_log_likelihood_from_row log row source totals) <->
     row !! source = None \/ row !! "Total"%string = None \/
     totals !! source = None) /\
  (forall e, compute_log_likelihood_from_row log row source totals = Raise e ->
     e = KeyError).
Proof.
  unfold compute_log_likelihood_from_row, get_observed_from_row,
    get_complement_from_row.
  destruct (row !! source) as [t_target|]; cbn -[compute_log_likelihood_from_observed];
    [|split; [split; [intros _; auto | intros _; exact I]|];
      intros e [= <-]; reflexivity].
  destruct (row !! "Total"%string) as [row_total|]; cbn -[compute_log_likelihood_from_observed];
    [|split; [split; [intros _; auto | intros _; exact I]|];
      intros e [= <-]; reflexivity].
  destruct (totals !! source) as [at_source|]; cbn -[compute_log_likelihood_from_observed];
    [|split; [split; [intros _; auto | intros _; exact I]|];
      intros e [= <-]; reflexivity].
  rewrite log_likelihood_on_table. cbn -[Np.mul Np.add Np.gt].
  split; [split|].
  - intros [].
  - intros [H|[H|H]]; discriminate.
  - intros e He. discriminate.
Qed.

(** [compute_category_totals] raises exactly when the frequency table has
    no ["Total"] column, with a [KeyError]; otherwise the totals have one row
    per column of the table. *)
Theorem category_totals_raise_iff_no_total
    (keyword_cat_freq : gmap string (list float64)) :
  (raises (compute_category_totals keyword_cat_freq) <->
     keyword_cat_freq !! "Total"%string = None) /\
  (forall e, compute_category_totals keyword_cat_freq = Raise e ->
     e = KeyError) /\
  (forall totals, compute_category_totals keyword_cat_freq = Ok totals ->
     dom totals = dom keyword_cat_freq).
Proof.
  unfold compute_category_totals. rewrite lookup_fmap.
  destruct (keyword_cat_freq !! "Total"%string) as [total_column|]; cbn.
  - split; [split; [intros [] | discriminate]|].
    split; [intros e He; discriminate|].
    intros totals [= <-]. rewrite !dom_fmap_L. reflexivity.
  - split; [split; [reflexivity | intros _; exact I]|].
    split; [intros e [= <-]; reflexivity | intros totals Ht; discriminate].
Qed.

(** In the totals of a frequency table of finite counts, the target and the
    reference frequency of every category add up to the grand total (the
    target frequency of ["Total"]), and the reference frequency of
    ["Total"] itself is zero. *)
Theorem category_totals_split_grand_total
    (keyword_cat_freq : gmap string (list float64))
    (totals : gmap string totals_row) :
  map_Forall (fun _ c => Forall (fun v => is_finite v = true) c)
    keyword_cat_freq ->
  compute_category_totals keyword_cat_freq = Ok totals ->
  exists grand : Qc,
    totals !! "Total"%string =
      Some {| target_freq := Fin grand; ref_freq := zero |} /\
    forall source at_source, totals !! source = Some at_source ->
      Np.add (target_freq at_source) (ref_freq at_source) = Fin grand.
Proof.
  intros Hfinite Htotals.
  destruct (category_totals_lookup _ _ "Total"%string Htotals)
    as (total_column & Htotal_column & Hat_total).
  destruct (column_sum_finite total_column) as [grand Hgrand];
    [exact (Hfinite _ _ Htotal_column)|].
  exists grand. split.
  - rewrite Hat_total, Htotal_column. cbn. rewrite Hgrand. cbn.
    do 3 f_equal. unfold zero. f_equal. ring.
  - intros source at_source Hsource.
    destruct (category_totals_lookup _ _ source Htotals)
      as (total_column' & Htotal_column' & Hat_source).
    rewrite Htotal_column in Htotal_column'. injection Htotal_column' as <-.
    rewrite Hsource in Hat_source.
    destruct (keyword_cat_freq !! source) as [column|] eqn:Hcolumn;
      [|discriminate].
    injection Hat_source as ->.
    destruct (column_sum_finite column) as [s Hs];
      [exact (Hfinite _ _ Hcolumn)|].
    cbn. rewrite Hgrand, Hs. cbn. f_equal. ring.
Qed.

(** ** Scores for a whole frame *)

Lemma mapM_Ok_Forall2 {A B : Type} (f : A -> result B) (l : list A)
    (out : list B) :
  mapM f l = Ok out <-> Forall2 (fun x y => f x = Ok y) l out.
Proof.
  revert out. induction l as [|x l IH]; intros out; cbn [mapM].
  - split.
    + intros [= <-]. constructor.
    + intros Hall. inversion Hall. reflexivity.
  - split.
    + destruct (f x) as [y|e] eqn:Hx; [cbn|discriminate].
      destruct (mapM f l) as [ys|e] eqn:Hl; [cbn|discriminate].
      intros [= <-]. constructor; [exact Hx|]. apply IH. reflexivity.
    + intros Hall. inversion Hall as [|? y ? ys Hx Hrest]; subst.
      rewrite Hx. cbn. apply IH in Hrest. rewrite Hrest. reflexivity.
Qed.

Lemma mapM_Raise_elem {A B : Type} (f : A -> result B) (l : list A)
    (e : exn) :
  mapM f l = Raise e -> exists x, x ∈ l /\ f x = Raise e.
Proof.
  induction l as [|x l IH]; cbn [mapM]; [discriminate|].
  destruct (f x) as [y|e'] eqn:Hx; cbn.
  - destruct (mapM f l) as [ys|e'']; cbn; [discriminate|].
    intros [= <-]. destruct IH as (x' & Hin & Hx'); [reflexivity|].
    exists x'. split; [right; exact Hin | exact Hx'].
  - intros [= <-]. exists x. split; [left | exact Hx].
Qed.

Lemma mapM_Ok_exists {A B : Type} (f : A -> result B) (l : list A) :
  Forall (fun x => exists y, f x = Ok y) l -> exists out, mapM f l = Ok out.
Proof.
  induction 1 as [|x l [y Hy] _ [out Hout]]; cbn [mapM].
  - eexists. reflexivity.
  - rewrite Hy. cbn. rewrite Hout. eexists. reflexivity.
Qed.

Lemma row_at_lookup (cols : gmap string (list float64)) (i : nat)
    (label : string) :
  row_at cols i !! label = cols !! label ≫= (fun c => c !! i).
Proof. unfold row_at. apply lookup_omap. Qed.

(** In a well-formed frame a row holds exactly the frame's columns. *)
Lemma row_at_is_Some (fr : frame) (i : nat) (label : string) :
  well_formed fr -> (i < length (index fr))%nat ->
  is_Some (row_at (columns fr) i !! label) <->
  is_Some (columns fr !! label).
Proof.
  intros Hwf Hi. rewrite row_at_lookup.
  destruct (columns fr !! label) as [c|] eqn:Hc; cbn.
  - split; [intros _; eexists; reflexivity|]. intros _.
    apply lookup_lt_is_Some_2. rewrite (Hwf _ _ Hc). exact Hi.
  - split; intros [x Hx]; discriminate.
Qed.

Lemma row_at_None (fr : frame) (i : nat) (label : string) :
  well_formed fr -> (i < length (index fr))%nat ->
  row_at (columns fr) i !! label = None <-> columns fr !! label = None.
Proof.
  intros Hwf Hi. rewrite !eq_None_not_Some.
  rewrite (row_at_is_Some fr i label Hwf Hi). reflexivity.
Qed.

Section KeynessFrames.

Variable log : float64 -> float64.

Lemma row_score_ok (row : gmap string float64) (source : string)
    (totals : gmap string totals_row) :
  is_Some (row !! source) -> is_Some (row !! "Total"%string) ->
  is_Some (totals !! source) ->
  exists ll, compute_log_likelihood_from_row log row source totals = Ok ll.
Proof.
  intros [a Ha] [t Ht] [r Hr].
  unfold compute_log_likelihood_from_row, get_observed_from_row,
    get_complement_from_row.
  rewrite Ha, Ht, Hr. cbn -[compute_log_likelihood_from_observed].
  rewrite log_likelihood_on_table. eexists. reflexivity.
Qed.

Lemma row_score_error (row : gmap string float64) (source : string)
    (totals : gmap string totals_row) (e : exn) :
  compute_log_likelihood_from_row log row source totals = Raise e ->
  e = KeyError /\
  (row !! source = None \/ row !! "Total"%string = None \/
   totals !! source = None).
Proof.
  unfold compute_log_likelihood_from_row, get_observed_from_row,
    get_complement_from_row.
  destruct (row !! source) as [a|];
    cbn -[compute_log_likelihood_from_observed];
    [|intros [= <-]; auto].
  destruct (row !! "Total"%string) as [t|];
    cbn -[compute_log_likelihood_from_observed];
    [|intros [= <-]; auto].
  destruct (totals !! source) as [r|];
    cbn -[compute_log_likelihood_from_observed];
    [|intros [= <-]; auto].
  rewrite log_likelihood_on_table. discriminate.
Qed.

Lemma row_score_missing (row : gmap string float64) (source : string)
    (totals : gmap string totals_row) :
  row !! source = None \/ row !! "Total"%string = None \/
  totals !! source = None ->
  exists e, compute_log_likelihood_from_row log row source totals = Raise e.
Proof.
  intros Hmissing.
  unfold compute_log_likelihood_from_row, get_observed_from_row,
    get_complement_from_row.
  destruct (row !! source);
    cbn -[compute_log_likelihood_from_observed]; [|eexists; reflexivity].
  destruct (row !! "Total"%string);
    cbn -[compute_log_likelihood_from_observed]; [|eexists; reflexivity].
  destruct (totals !! source);
    cbn -[compute_log_likelihood_from_observed]; [|eexists; reflexivity].
  destruct Hmissing as [H|[H|H]]; discriminate.
Qed.

Variables (keyword_cat_freq : frame).
Variables (keyword_cat_totals : gmap string totals_row) (category : string).

Local Abbreviation score :=
  (fun keyword : gmap string float64 =>
     compute_log_likelihood_from_row log keyword category keyword_cat_totals).

Local Abbreviation key_missing :=
  (columns keyword_cat_freq !! category = None \/
   columns keyword_cat_freq !! "Total"%string = None \/
   keyword_cat_totals !! category = None).

Lemma standard_scores :
  well_formed keyword_cat_freq ->
  is_Some (columns keyword_cat_freq !! category) ->
  is_Some (columns keyword_cat_freq !! "Total"%string) ->
  is_Some (keyword_cat_totals !! category) ->
  exists out,
    apply_standard score keyword_cat_freq = Ok out /\
    out.*1 = index keyword_cat_freq /\
    forall i label, index keyword_cat_freq !! i = Some label ->
      exists ll, out !! i = Some (label, ll) /\
        compute_log_likelihood_from_row log
          (row_at (columns keyword_cat_freq) i) category keyword_cat_totals =
          Ok ll.
Proof.
  intros Hwf Hcat Htotal Htotals. unfold apply_standard.
  destruct (mapM_Ok_exists
              (fun '(label, row) => r ← score row; mret (label, r))
              (iterrows keyword_cat_freq)) as [out Hout].
  { apply Forall_forall. intros [label keyword] Hin.
    apply elem_of_lookup_imap in Hin as (i & label' & [= -> ->] & Hi).
    apply lookup_lt_Some in Hi.
    destruct (row_score_ok (row_at (columns keyword_cat_freq) i) category
                keyword_cat_totals) as [ll Hll];
      [apply row_at_is_Some; assumption
      |apply row_at_is_Some; assumption
      |exact Htotals|].
    rewrite Hll. eexists. reflexivity. }
  exists out. split; [exact Hout|].
  apply mapM_Ok_Forall2 in Hout.
  assert (Hrows : forall i label, index keyword_cat_freq !! i = Some label ->
            exists ll, out !! i = Some (label, ll) /\
              compute_log_likelihood_from_row log
                (row_at (columns keyword_cat_freq) i) category
                keyword_cat_totals = Ok ll).
  { intros i label Hi.
    destruct (Forall2_lookup_l _ _ _ i (label, row_at (columns keyword_cat_freq) i)
                Hout) as ([label' ll] & Hout_i & Hf).
    { unfold iterrows. rewrite list_lookup_imap, Hi. reflexivity. }
    cbn in Hf.
    destruct (compute_log_likelihood_from_row log _ category
                keyword_cat_totals) as [ll'|e]; [|discriminate].
    injection Hf as <- <-. exists ll'. split; [exact Hout_i | reflexivity]. }
  split; [|exact Hrows].
  apply list_eq. intros i. rewrite list_lookup_fmap.
  destruct (index keyword_cat_freq !! i) as [label|] eqn:Hi.
  - destruct (Hrows i label Hi) as (ll & -> & _). reflexivity.
  - apply lookup_ge_None in Hi.
    rewrite (proj2 (lookup_ge_None out i)); [reflexivity|].
    rewrite <- (Forall2_length _ _ _ Hout). unfold iterrows.
    rewrite length_imap. exact Hi.
Qed.

Lemma standard_error (e : exn) :
  well_formed keyword_cat_freq ->
  apply_standard score keyword_cat_freq = Raise e ->
  e = KeyError /\ key_missing.
Proof.
  intros Hwf He. unfold apply_standard in He.
  apply mapM_Raise_elem in He as ([label keyword] & Hin & Hrow).
  apply elem_of_lookup_imap in Hin as (i & label' & [= -> ->] & Hi).
  destruct (compute_log_likelihood_from_row log _ category
              keyword_cat_totals) as [ll|e'] eqn:Hscore; [discriminate|].
  injection Hrow as ->.
  apply row_score_error in Hscore as [-> Hmissing].
  split; [reflexivity|].
  apply lookup_lt_Some in Hi.
  rewrite !(row_at_None keyword_cat_freq i) in Hmissing by assumption.
  exact Hmissing.
Qed.

Lemma standard_raises :
  well_formed keyword_cat_freq -> index keyword_cat_freq <> [] ->
  key_missing -> raises (apply_standard score keyword_cat_freq).
Proof.
  intros Hwf Hne Hmissing.
  destruct (apply_standard score keyword_cat_freq) as [out|e] eqn:Hrun;
    [|exact I].
  exfalso. unfold apply_standard in Hrun.
  apply mapM_Ok_Forall2 in Hrun.
  destruct (index keyword_cat_freq) as [|label rest] eqn:Hindex;
    [congruence|].
  destruct (Forall2_lookup_l _ _ _ 0%nat
              (label, row_at (columns keyword_cat_freq) 0) Hrun)
    as ([label' ll] & _ & Hf).
  { unfold iterrows. rewrite Hindex. reflexivity. }
  cbn in Hf.
  destruct (compute_log_likelihood_from_row log _ category
              keyword_cat_totals) as [ll'|e] eqn:Hscore; [|discriminate].
  assert (H0 : (0 < length (index keyword_cat_freq))%nat)
    by (rewrite Hindex; cbn; lia).
  rewrite <- !(row_at_None keyword_cat_freq 0) in Hmissing by assumption.
  destruct (row_score_missing _ _ _ Hmissing) as [e He]. congruence.
Qed.

(** The row of NaN that [apply] tries on a frame with an empty axis has the
    labels of the frame's columns. *)
Lemma nan_row_None (label : string) :
  ((fun _ : list float64 => NaN) <$> columns keyword_cat_freq) !! label = None
  <-> columns keyword_cat_freq !! label = None.
Proof. rewrite lookup_fmap, fmap_None. reflexivity. Qed.

Lemma empty_result_value :
  index keyword_cat_freq = [] \/ columns keyword_cat_freq = ∅ ->
  apply_empty_result score keyword_cat_freq =
    Ok (if decide key_missing then Copy keyword_cat_freq else Scores []).
Proof.
  intros Hempty. unfold apply_empty_result. cbn beta.
  destruct (decide key_missing) as [Hmissing|Hpresent].
  - rewrite <- !nan_row_None in Hmissing.
    destruct (row_score_missing _ _ _ Hmissing) as [e ->]. reflexivity.
  - destruct (compute_log_likelihood_from_row log _ category
                keyword_cat_totals) as [ll|e] eqn:Hscore.
    + destruct Hempty as [Hnil|Hnone].
      * rewrite decide_True by exact Hnil. reflexivity.
      * exfalso. apply Hpresent. left. rewrite Hnone. apply lookup_empty.
    + exfalso. apply Hpresent.
      apply row_score_error in Hscore as [_ Hmissing].
      rewrite !nan_row_None in Hmissing. exact Hmissing.
Qed.

(** With its keys present, [compute_keyness] is the run over the rows, also
    on a frame without rows. *)
Lemma keyness_standard :
  is_Some (columns keyword_cat_freq !! category) ->
  is_Some (columns keyword_cat_freq !! "Total"%string) ->
  is_Some (keyword_cat_totals !! category) ->
  compute_keyness log keyword_cat_freq keyword_cat_totals category =
    Scores <$> apply_standard score keyword_cat_freq.
Proof.
  intros Hcat Htotal Htotals. unfold compute_keyness, apply_rows.
  destruct (decide (index keyword_cat_freq = [] \/
                    columns keyword_cat_freq = ∅)) as [Hempty|Hfull];
    [|reflexivity].
  rewrite (empty_result_value Hempty).
  rewrite decide_False.
  2:{ intros [H|[H|H]]; rewrite H in *;
        match goal with H' : is_Some None |- _ => destruct H' as [? [=]] end. }
  destruct Hempty as [Hnil|Hnone].
  - unfold apply_standard, iterrows. rewrite Hnil. reflexivity.
  - rewrite Hnone, lookup_empty in Hcat. destruct Hcat as [? [=]].
Qed.

(** With the category and ["Total"] among the columns of a well-formed
    frequency frame and the category among the totals, [compute_keyness]
    returns one score per keyword, under the keyword's label and in the
    frame's order, and each is the score of that keyword's row. *)
Theorem keyness_scores_every_keyword :
  well_formed keyword_cat_freq ->
  is_Some (columns keyword_cat_freq !! category) ->
  is_Some (columns keyword_cat_freq !! "Total"%string) ->
  is_Some (keyword_cat_totals !! category) ->
  exists out,
    compute_keyness log keyword_cat_freq keyword_cat_totals category =
      Ok (Scores out) /\
    out.*1 = index keyword_cat_freq /\
    forall i label, index keyword_cat_freq !! i = Some label ->
      exists ll, out !! i = Some (label, ll) /\
        compute_log_likelihood_from_row log
          (row_at (columns keyword_cat_freq) i) category keyword_cat_totals =
          Ok ll.
Proof.
  intros Hwf Hcat Htotal Htotals.
  rewrite (keyness_standard Hcat Htotal Htotals).
  destruct (standard_scores Hwf Hcat Htotal Htotals)
    as (out & Hout & Hlabels & Hrows).
  exists out. rewrite Hout. split; [reflexivity|].
  split; [exact Hlabels | exact Hrows].
Qed.

(** [compute_keyness] on a well-formed frame raises exactly when the frame
    has a row and a column and a key is missing: the category or ["Total"]
    among the columns, or the category among the totals.  The error is a
    [KeyError].  On a frame without rows or without columns a missing key
    goes unnoticed: the result is a copy of the frame. *)
Theorem keyness_raises_iff_key_missing :
  well_formed keyword_cat_freq ->
  (raises (compute_keyness log keyword_cat_freq keyword_cat_totals category)
   <-> index keyword_cat_freq <> [] /\ columns keyword_cat_freq <> ∅ /\
       (columns keyword_cat_freq !! category = None \/
        columns keyword_cat_freq !! "Total"%string = None \/
        keyword_cat_totals !! category = None)) /\
  (forall e,
     compute_keyness log keyword_cat_freq keyword_cat_totals category =
       Raise e -> e = KeyError) /\
  (index keyword_cat_freq = [] \/ columns keyword_cat_freq = ∅ ->
   columns keyword_cat_freq !! category = None \/
   columns keyword_cat_freq !! "Total"%string = None \/
   keyword_cat_totals !! category = None ->
   compute_keyness log keyword_cat_freq keyword_cat_totals category =
     Ok (Copy keyword_cat_freq)).
Proof.
  intros Hwf. unfold compute_keyness, apply_rows.
  destruct (decide (index keyword_cat_freq = [] \/
                    columns keyword_cat_freq = ∅)) as [Hempty|Hfull].
  - rewrite (empty_result_value Hempty). split; [split|split].
    + intros [].
    + intros (Hrows & Hcolumns & _). destruct Hempty; contradiction.
    + discriminate.
    + intros _ Hmissing. rewrite decide_True by exact Hmissing. reflexivity.
  - assert (Hrows : index keyword_cat_freq <> []) by tauto.
    assert (Hcolumns : columns keyword_cat_freq <> ∅) by tauto.
    split; [split|split].
    + destruct (apply_standard score keyword_cat_freq) as [out|e] eqn:Hrun;
        [intros []|].
      intros _. destruct (standard_error e Hwf Hrun) as [_ Hmissing]. auto.
    + intros (_ & _ & Hmissing).
      pose proof (standard_raises Hwf Hrows Hmissing) as Hraise.
      destruct (apply_standard score keyword_cat_freq); [destruct Hraise|exact I].
    + intros e He.
      destruct (apply_standard score keyword_cat_freq) as [out|e'] eqn:Hrun;
        [discriminate|].
      injection He as <-. exact (proj1 (standard_error e' Hwf Hrun)).
    + intros Hempty. contradiction.
Qed.

End KeynessFrames.

Lemma keyness_returns (log : float64 -> float64) (keyword_cat_freq : frame)
    (keyword_cat_totals : gmap string totals_row) (category : string) :
  well_formed keyword_cat_freq ->
  is_Some (columns keyword_cat_freq !! category) ->
  is_Some (columns keyword_cat_freq !! "Total"%string) ->
  is_Some (keyword_cat_totals !! category) ->
  exists out,
    compute_keyness log keyword_cat_freq keyword_cat_totals category =
      Ok (Scores out) /\
    length out = length (index keyword_cat_freq).
Proof.
  intros Hwf Hcat Htotal Htotals.
  rewrite (keyness_standard log keyword_cat_freq keyword_cat_totals category
             Hcat Htotal Htotals).
  destruct (standard_scores log keyword_cat_freq keyword_cat_totals category
              Hwf Hcat Htotal Htotals) as (out & Hout & Hlabels & _).
  exists out. rewrite Hout. split; [reflexivity|].
  rewrite <- Hlabels. symmetry. apply length_fmap.
Qed.

(** ** Sums of counts *)

Lemma add_comm (x y : float64) : Np.add x y = Np.add y x.
Proof.
  destruct x as [a| | |], y as [b| | |]; simpl; try reflexivity.
  f_equal. ring.
Qed.

Lemma add_assoc (x y z : float64) :
  Np.add (Np.add x y) z = Np.add x (Np.add y z).
Proof.
  destruct x as [a| | |], y as [b| | |], z as [c| | |]; simpl;
    try reflexivity.
  f_equal. ring.
Qed.

Lemma fold_add_Permutation (l l' : list float64) :
  l ≡ₚ l' -> forall acc, fold_left Np.add l acc = fold_left Np.add l' acc.
Proof.
  induction 1 as [|x l l' _ IH|x y l|l l' l'' _ IH1 _ IH2]; intros acc.
  - reflexivity.
  - cbn. apply IH.
  - cbn. f_equal. rewrite !add_assoc. f_equal. apply add_comm.
  - rewrite IH1. apply IH2.
Qed.

Lemma column_sum_Permutation (l l' : list float64) :
  l ≡ₚ l' -> column_sum l = column_sum l'.
Proof.
  intros Hperm. unfold column_sum, Np.sum.
  apply fold_add_Permutation. rewrite Hperm. reflexivity.
Qed.

Lemma of_int_add (a b : Z) : Np.add (of_int a) (of_int b) = of_int (a + b).
Proof.
  unfold of_int. cbn [Np.add]. f_equal. apply Qc_is_canon.
  rewrite inject_Z_plus. unfold Qcplus. cbn [this Q2Qc].
  rewrite !Qred_correct. reflexivity.
Qed.

Lemma sum_int_cons (x : Z) (l : list Z) : sum_int (x :: l) = x + sum_int l.
Proof. unfold sum_int at 1. cbn [fold_left]. rewrite sum_int_app. lia. Qed.

Lemma fold_add_of_int (l : list Z) (acc : Z) :
  fold_left Np.add (of_int <$> l) (of_int acc) = of_int (acc + sum_int l).
Proof.
  revert acc. induction l as [|x l IH]; intros acc.
  - cbn. f_equal. unfold sum_int. cbn. lia.
  - cbn [fmap list_fmap fold_left]. rewrite of_int_add, IH, sum_int_cons.
    f_equal. lia.
Qed.

Lemma filter_all {A : Type} (P : A -> Prop) `{!forall x, Decision (P x)}
    (l : list A) :
  Forall P l -> filter P l = l.
Proof.
  induction 1 as [|x l Hx _ IH]; [reflexivity|].
  rewrite filter_cons_True by exact Hx. rewrite IH. reflexivity.
Qed.

(** A column of counts adds up to the count of the sum. *)
Lemma column_sum_of_int (l : list Z) :
  column_sum (of_int <$> l) = of_int (sum_int l).
Proof.
  unfold column_sum, Np.sum. rewrite filter_all.
  - change zero with (of_int 0). rewrite fold_add_of_int. reflexivity.
  - apply Forall_fmap, Forall_forall. intros z _. reflexivity.
Qed.

Lemma sum_int_plus {A : Type} (f g : A -> Z) (l : list A) :
  sum_int ((fun x => f x + g x) <$> l) =
  sum_int (f <$> l) + sum_int (g <$> l).
Proof.
  induction l as [|x l IH]; [reflexivity|].
  cbn [fmap list_fmap]. rewrite !sum_int_cons, IH. lia.
Qed.

Lemma sum_int_zero {A : Type} (l : list A) :
  sum_int ((fun _ => 0) <$> l) = 0.
Proof.
  induction l as [|x l IH]; [reflexivity|].
  cbn [fmap list_fmap]. rewrite sum_int_cons, IH. lia.
Qed.

(** Over labels without repetition, exactly one label is a given one. *)
Lemma sum_int_indicator (c0 : string) (l : list string) :
  NoDup l ->
  sum_int ((fun c => if decide (c = c0) then 1 else 0) <$> l) =
    if decide (c0 ∈ l) then 1 else 0.
Proof.
  induction 1 as [|c l Hnotin _ IH].
  - reflexivity.
  - cbn [fmap list_fmap]. rewrite sum_int_cons, IH.
    destruct (decide (c = c0)) as [->|Hne].
    + rewrite (decide_True (P := c0 ∈ c0 :: l)) by left.
      rewrite decide_False by exact Hnotin. lia.
    + destruct (decide (c0 ∈ l)) as [Hin|Hout].
      * rewrite decide_True by (right; exact Hin). lia.
      * rewrite decide_False; [lia|].
        intros Hin. apply elem_of_cons in Hin as [->|Hin]; contradiction.
Qed.

Lemma length_filter_ext {A : Type} (P Q : A -> Prop)
    `{!forall x, Decision (P x)} `{!forall x, Decision (Q x)} (l : list A) :
  (forall x, x ∈ l -> P x <-> Q x) ->
  length (filter P l) = length (filter Q l).
Proof.
  induction l as [|x l IH]; intros Hext; [reflexivity|].
  assert (Hrest : forall y, y ∈ l -> P y <-> Q y)
    by (intros y Hy; apply Hext; right; exact Hy).
  assert (Hx : P x <-> Q x) by (apply Hext; left).
  destruct (decide (P x)) as [HP|HnP].
  - rewrite (filter_cons_True P) by exact HP.
    rewrite (filter_cons_True Q) by (apply Hx; exact HP).
    cbn. rewrite (IH Hrest). reflexivity.
  - rewrite (filter_cons_False P) by exact HnP.
    rewrite (filter_cons_False Q) by (intros HQ; apply HnP, Hx; exact HQ).
    exact (IH Hrest).
Qed.

Lemma length_filter_fmap {A B : Type} (f : A -> B) (P : B -> Prop)
    `{!forall y, Decision (P y)} (l : list A) :
  length (filter P (f <$> l)) = length (filter (fun x => P (f x)) l).
Proof.
  induction l as [|x l IH]; [reflexivity|].
  cbn [fmap list_fmap].
  destruct (decide (P (f x))) as [HP|HnP].
  - rewrite (filter_cons_True P) by exact HP.
    rewrite (filter_cons_True (fun x => P (f x))) by exact HP.
    cbn. rewrite IH. reflexivity.
  - rewrite (filter_cons_False P) by exact HnP.
    rewrite (filter_cons_False (fun x => P (f x))) by exact HnP.
    exact IH.
Qed.

(** Counting the entries that satisfy [P] label by label, over labels
    without repetition that cover the list, counts them all. *)
Lemma sum_count_by_label {A : Type} (key : A -> string) (P : A -> Prop)
    `{!forall x, Decision (P x)} (labels : list string) (l : list A) :
  NoDup labels -> Forall (fun x => key x ∈ labels) l ->
  sum_int ((fun label =>
              Z.of_nat (length (filter (fun x => key x = label /\ P x) l)))
             <$> labels) =
  Z.of_nat (length (filter P l)).
Proof.
  intros Hnodup. induction 1 as [|x l Hx _ IH].
  - cbn. apply sum_int_zero.
  - rewrite (list_fmap_ext _
      (fun label =>
         (if decide (label = key x) then if decide (P x) then 1 else 0 else 0)
         + Z.of_nat (length (filter (fun y => key y = label /\ P y) l)))).
    + rewrite sum_int_plus, IH.
      destruct (decide (P x)) as [HP|HnP].
      * rewrite sum_int_indicator by exact Hnodup.
        rewrite decide_True by exact Hx.
        rewrite filter_cons_True by exact HP. cbn [length]. lia.
      * rewrite (list_fmap_ext _ (fun _ => 0)).
        -- rewrite sum_int_zero, filter_cons_False by exact HnP. lia.
        -- intros i label _. destruct (decide (label = key x)); reflexivity.
    + intros i label _.
      destruct (decide (label = key x)) as [->|Hne].
      * destruct (decide (P x)) as [HP|HnP].
        -- rewrite filter_cons_True by (split; [reflexivity | exact HP]).
           cbn [length]. lia.
        -- rewrite filter_cons_False by (intros [_ HP]; contradiction). lia.
      * rewrite filter_cons_False by (intros [Heq _]; congruence). lia.
Qed.

Lemma count_rows_over_categories (k : string) (categories : list string)
    (pairs : list (string * string)) :
  NoDup categories -> Forall (fun p => p.2 ∈ categories) pairs ->
  sum_int ((fun c => count_rows k c pairs) <$> categories) =
    occurrences k pairs.*1.
Proof.
  intros Hnodup Hcover.
  unfold occurrences. rewrite length_filter_fmap.
  rewrite <- (sum_count_by_label snd (fun p => p.1 = k) categories pairs
                Hnodup Hcover).
  f_equal. apply list_fmap_ext. intros i c _. unfold count_rows. f_equal.
  apply length_filter_ext. intros [pk pc] _. cbn. split.
  - intros [= -> ->]. split; reflexivity.
  - intros [-> ->]. reflexivity.
Qed.

Lemma count_rows_over_keywords (c : string) (keywords : list string)
    (pairs : list (string * string)) :
  NoDup keywords -> Forall (fun p => p.1 ∈ keywords) pairs ->
  sum_int ((fun k => count_rows k c pairs) <$> keywords) =
    occurrences c pairs.*2.
Proof.
  intros Hnodup Hcover.
  unfold occurrences. rewrite length_filter_fmap.
  rewrite <- (sum_count_by_label fst (fun p => p.2 = c) keywords pairs
                Hnodup Hcover).
  f_equal. apply list_fmap_ext. intros i k _. unfold count_rows. f_equal.
  apply length_filter_ext. intros [pk pc] _. cbn. split.
  - intros [= -> ->]. split; reflexivity.
  - intros [-> ->]. reflexivity.
Qed.

Lemma occurrences_over_labels (labels l : list string) :
  NoDup labels -> Forall (fun x => x ∈ labels) l ->
  sum_int ((fun k => occurrences k l) <$> labels) = Z.of_nat (length l).
Proof.
  intros Hnodup Hcover.
  replace (length l) with (length (filter (fun _ : string => True) l))
    by (rewrite filter_all; [reflexivity|];
        apply Forall_forall; intros; exact I).
  rewrite <- (sum_count_by_label id (fun _ => True) labels l Hnodup Hcover).
  f_equal. apply list_fmap_ext. intros i k _. unfold occurrences. f_equal.
  apply length_filter_ext. intros x _. cbn. tauto.
Qed.

(** ** The labels of the frequency frame *)

Lemma sort_labels_Permutation (l : list string) : sort_labels l ≡ₚ l.
Proof. unfold sort_labels. apply merge_sort_Permutation. Qed.

Lemma elem_of_sorted_labels (x : string) (l : list string) :
  x ∈ sort_labels (remove_dups l) <-> x ∈ l.
Proof. rewrite sort_labels_Permutation. apply elem_of_remove_dups. Qed.

Lemma NoDup_sorted_labels (l : list string) :
  NoDup (sort_labels (remove_dups l)).
Proof. rewrite sort_labels_Permutation. apply NoDup_remove_dups. Qed.

Lemma Sorted_sort_labels (l : list string) :
  Sorted (fun s1 s2 => Is_true (String.leb s1 s2)) (sort_labels l).
Proof.
  unfold sort_labels. apply Sorted_merge_sort.
  intros s1 s2. destruct (String.leb_total s1 s2) as [H|H];
    rewrite H; [left | right]; exact I.
Qed.

Lemma lookup_labelled_map {V : Type} (f : string -> V) (labels : list string)
    (label : string) :
  (list_to_map ((fun c => (c, f c)) <$> labels) : gmap string V) !! label =
    if decide (label ∈ labels) then Some (f label) else None.
Proof.
  induction labels as [|c labels IH]; cbn.
  - rewrite lookup_empty. rewrite decide_False by apply not_elem_of_nil.
    reflexivity.
  - destruct (decide (c = label)) as [->|Hne].
    + rewrite lookup_insert_eq. rewrite decide_True by left. reflexivity.
    + rewrite lookup_insert_ne by exact Hne. rewrite IH.
      destruct (decide (label ∈ labels)) as [Hin|Hout].
      * rewrite decide_True by (right; exact Hin). reflexivity.
      * rewrite decide_False; [reflexivity|].
        intros Hin. apply elem_of_cons in Hin as [->|Hin]; contradiction.
Qed.

(** ** The frequency frame *)

Lemma of_int_sub (a b : Z) : Np.sub (of_int a) (of_int b) = of_int (a - b).
Proof.
  unfold Np.sub, of_int. cbn [Np.neg Np.add]. f_equal. apply Qc_is_canon.
  unfold Z.sub. rewrite inject_Z_plus, inject_Z_opp.
  unfold Qcplus, Qcopp. cbn [this Q2Qc]. rewrite !Qred_correct. reflexivity.
Qed.

Lemma unstacked_counts_lookup (pairs : list (string * string))
    (row_labels column_labels : list string) (c : string) :
  unstacked_counts pairs row_labels column_labels !! c =
    if decide (c ∈ column_labels)
    then Some ((fun k => of_int (count_rows k c pairs)) <$> row_labels)
    else None.
Proof.
  unfold unstacked_counts.
  apply (lookup_labelled_map
           (fun c => (fun k => of_int (count_rows k c pairs)) <$> row_labels)).
Qed.

(** Row [i] of the counts: for each category, the count of the [i]-th
    keyword with it. *)
Lemma unstacked_counts_row (pairs : list (string * string))
    (row_labels column_labels : list string) (i : nat) (k : string) :
  row_labels !! i = Some k ->
  row_at (unstacked_counts pairs row_labels column_labels) i =
    list_to_map ((fun c => (c, of_int (count_rows k c pairs)))
                   <$> column_labels).
Proof.
  intros Hi. apply map_eq. intros c.
  rewrite row_at_lookup, unstacked_counts_lookup.
  rewrite (lookup_labelled_map (fun c => of_int (count_rows k c pairs))).
  destruct (decide (c ∈ column_labels)); [|reflexivity].
  cbn. rewrite list_lookup_fmap, Hi. reflexivity.
Qed.

Lemma sum_rows_lookup (pairs : list (string * string))
    (row_labels column_labels : list string) (i : nat) (k : string) :
  NoDup column_labels -> Forall (fun p => p.2 ∈ column_labels) pairs ->
  row_labels !! i = Some k ->
  sum_rows (length row_labels)
    (unstacked_counts pairs row_labels column_labels) !! i =
    Some (of_int (occurrences k pairs.*1)).
Proof.
  intros Hnodup Hcover Hi. unfold sum_rows.
  rewrite list_lookup_fmap, lookup_seq_lt by (apply lookup_lt_Some in Hi; exact Hi).
  cbn. f_equal.
  rewrite (unstacked_counts_row _ _ _ _ _ Hi).
  rewrite (column_sum_Permutation _
             ((fun c => of_int (count_rows k c pairs)) <$> column_labels)).
  - rewrite (list_fmap_compose (fun c => count_rows k c pairs) of_int).
    rewrite column_sum_of_int.
    rewrite (count_rows_over_categories k column_labels pairs Hnodup Hcover).
    reflexivity.
  - rewrite map_to_list_to_map.
    + rewrite <- list_fmap_compose. reflexivity.
    + rewrite <- list_fmap_compose. cbn.
      rewrite list_fmap_id. exact Hnodup.
Qed.

Section FrequencyFrame.

Variables (df : gmap string (list string)) (category_col keyword_col : string).
Variables (keywords categories : list string).

Hypothesis keyword_column : df !! keyword_col = Some keywords.
Hypothesis category_column : df !! category_col = Some categories.
Hypothesis same_length : length keywords = length categories.

(** The frame that the function returns on these two columns. *)
Lemma frequency_frame_value :
  keyword_col <> category_col ->
  compute_keyword_category_freq df category_col keyword_col =
    Ok {| index := sort_labels (remove_dups keywords);
          columns :=
            <["Total"%string :=
                sum_rows (length (sort_labels (remove_dups keywords)))
                  (unstacked_counts (zip keywords categories)
                     (sort_labels (remove_dups keywords))
                     (sort_labels (remove_dups categories)))]>
              (unstacked_counts (zip keywords categories)
                 (sort_labels (remove_dups keywords))
                 (sort_labels (remove_dups categories))) |}.
Proof.
  intros Hdistinct. unfold compute_keyword_category_freq.
  rewrite keyword_column, category_column. cbn.
  rewrite decide_False by exact Hdistinct.
  rewrite fst_zip, snd_zip by lia. reflexivity.
Qed.

Lemma pairs_covered_by_categories :
  Forall (fun p : string * string =>
            p.2 ∈ sort_labels (remove_dups categories))
    (zip keywords categories).
Proof.
  apply Forall_forall. intros [k c] Hin. cbn.
  apply elem_of_sorted_labels. apply elem_of_zip_r in Hin. exact Hin.
Qed.

Lemma pairs_covered_by_keywords :
  Forall (fun p : string * string =>
            p.1 ∈ sort_labels (remove_dups keywords))
    (zip keywords categories).
Proof.
  apply Forall_forall. intros [k c] Hin. cbn.
  apply elem_of_sorted_labels. apply elem_of_zip_l in Hin. exact Hin.
Qed.

Lemma total_column_value :
  sum_rows (length (sort_labels (remove_dups keywords)))
    (unstacked_counts (zip keywords categories)
       (sort_labels (remove_dups keywords))
       (sort_labels (remove_dups categories))) =
  (fun k => of_int (occurrences k keywords))
    <$> sort_labels (remove_dups keywords).
Proof.
  apply list_eq. intros i. rewrite list_lookup_fmap.
  destruct (sort_labels (remove_dups keywords) !! i) as [k|] eqn:Hi.
  - rewrite (sum_rows_lookup _ _ _ i k (NoDup_sorted_labels categories)
               pairs_covered_by_categories Hi).
    rewrite fst_zip by lia. reflexivity.
  - apply lookup_ge_None. apply lookup_ge_None in Hi.
    unfold sum_rows. rewrite length_fmap, length_seq. exact Hi.
Qed.

Local Abbreviation counted := (counted_frame keywords categories).

Lemma counted_well_formed : well_formed counted.
Proof.
  unfold well_formed, counted_frame. cbn [index columns].
  apply map_Forall_insert_2.
  - rewrite total_column_value, length_fmap. reflexivity.
  - intros c column Hc. rewrite unstacked_counts_lookup in Hc.
    destruct (decide (c ∈ _)); [|discriminate].
    injection Hc as <-. rewrite length_fmap. reflexivity.
Qed.

Lemma counted_columns (c : string) :
  is_Some (columns counted !! c) <-> c = "Total"%string \/ c ∈ categories.
Proof.
  unfold counted_frame. cbn [columns].
  destruct (decide (c = "Total"%string)) as [->|Hne].
  - rewrite lookup_insert_eq.
    split; [intros _; left; reflexivity | intros _; eexists; reflexivity].
  - rewrite lookup_insert_ne by congruence.
    rewrite unstacked_counts_lookup.
    destruct (decide (c ∈ sort_labels (remove_dups categories)))
      as [Hin|Hout].
    + apply (proj1 (elem_of_sorted_labels _ _)) in Hin.
      split; [intros _; right; exact Hin | intros _; eexists; reflexivity].
    + rewrite elem_of_sorted_labels in Hout.
      split; [intros [x Hx]; discriminate | intros [H|H]; contradiction].
Qed.

(** The frequency frame of a table with at least one row, counted over two
    different columns of it, has one row per distinct keyword, sorted and without repetition, and one column per
    distinct category besides ["Total"]; every column has one value per
    keyword. *)
Theorem frequency_frame_shape :
  keywords <> [] -> keyword_col <> category_col ->
  exists fr,
    compute_keyword_category_freq df category_col keyword_col = Ok fr /\
    well_formed fr /\
    NoDup (index fr) /\
    Sorted (fun s1 s2 => Is_true (String.leb s1 s2)) (index fr) /\
    (forall k, k ∈ index fr <-> k ∈ keywords) /\
    (forall c, is_Some (columns fr !! c) <->
               c = "Total"%string \/ c ∈ categories).
Proof.
  intros _ Hdistinct. exists counted.
  split; [apply frequency_frame_value, Hdistinct|].
  split; [apply counted_well_formed|].
  split; [apply NoDup_sorted_labels|].
  split; [apply Sorted_sort_labels|].
  split; [intros k; apply elem_of_sorted_labels | apply counted_columns].
Qed.

(** Each cell of the frequency frame of such a table counts rows of the
    table: under a category, the rows with that keyword and that category; under
    ["Total"], all the rows with that keyword. *)
Theorem frequency_frame_counts_rows :
  keywords <> [] -> keyword_col <> category_col ->
  exists fr,
    compute_keyword_category_freq df category_col keyword_col = Ok fr /\
    forall i k, index fr !! i = Some k ->
      row_at (columns fr) i !! "Total"%string =
        Some (of_int (occurrences k keywords)) /\
      forall c, c ∈ categories -> c <> "Total"%string ->
        row_at (columns fr) i !! c =
          Some (of_int (count_rows k c (zip keywords categories))).
Proof.
  intros _ Hdistinct. eexists.
  split; [apply frequency_frame_value, Hdistinct|].
  cbn [index columns]. intros i k Hi. split.
  - rewrite row_at_lookup, lookup_insert_eq, total_column_value. cbn.
    rewrite list_lookup_fmap, Hi. reflexivity.
  - intros c Hc Hne.
    rewrite row_at_lookup, lookup_insert_ne by congruence.
    rewrite unstacked_counts_lookup.
    rewrite decide_True by (apply elem_of_sorted_labels; exact Hc).
    cbn. rewrite list_lookup_fmap, Hi. reflexivity.
Qed.

(** The totals of the frequency frame of such a table count rows of the
    table as well: when no category is called ["Total"], the target
    frequency of a category is the number of rows with that category, its
    reference frequency the number of rows with another one, and the grand
    total the number of rows. *)
Theorem frequency_frame_totals_count_rows :
  keywords <> [] -> keyword_col <> category_col ->
  "Total"%string ∉ categories ->
  exists fr totals,
    compute_keyword_category_freq df category_col keyword_col = Ok fr /\
    compute_category_totals (columns fr) = Ok totals /\
    totals !! "Total"%string =
      Some {| target_freq := of_int (Z.of_nat (length keywords));
              ref_freq := of_int 0 |} /\
    forall c, c ∈ categories ->
      totals !! c =
        Some {| target_freq := of_int (occurrences c categories);
                ref_freq := of_int (Z.of_nat (length keywords)
                                    - occurrences c categories) |}.
Proof.
  intros _ Hdistinct Hno_total.
  eexists.
  destruct (compute_category_totals
              (<["Total"%string :=
                   sum_rows (length (sort_labels (remove_dups keywords)))
                     (unstacked_counts (zip keywords categories)
                        (sort_labels (remove_dups keywords))
                        (sort_labels (remove_dups categories)))]>
                 (unstacked_counts (zip keywords categories)
                    (sort_labels (remove_dups keywords))
                    (sort_labels (remove_dups categories)))))
    as [totals|e] eqn:Htotals.
  2: { unfold compute_category_totals in Htotals.
       rewrite lookup_fmap, lookup_insert_eq in Htotals. discriminate. }
  exists totals. split; [apply frequency_frame_value, Hdistinct|].
  cbn [columns]. split; [exact Htotals|].
  assert (Hgrand :
    column_sum
      (sum_rows (length (sort_labels (remove_dups keywords)))
         (unstacked_counts (zip keywords categories)
            (sort_labels (remove_dups keywords))
            (sort_labels (remove_dups categories)))) =
    of_int (Z.of_nat (length keywords))).
  { rewrite total_column_value.
    rewrite (list_fmap_compose (fun k => occurrences k keywords) of_int).
    rewrite column_sum_of_int. f_equal.
    apply occurrences_over_labels; [apply NoDup_sorted_labels|].
    apply Forall_forall. intros k Hk. apply elem_of_sorted_labels. exact Hk. }
  split.
  - destruct (category_totals_lookup _ _ "Total"%string Htotals)
      as (total_column & Htotal_column & ->).
    rewrite lookup_insert_eq in Htotal_column |- *.
    injection Htotal_column as <-. cbn.
    rewrite Hgrand, of_int_sub. do 3 f_equal. lia.
  - intros c Hc.
    assert (Hne : c <> "Total"%string) by (intros ->; contradiction).
    destruct (category_totals_lookup _ _ c Htotals)
      as (total_column & Htotal_column & ->).
    rewrite lookup_insert_eq in Htotal_column. injection Htotal_column as <-.
    rewrite lookup_insert_ne by congruence.
    rewrite unstacked_counts_lookup.
    rewrite decide_True by (apply elem_of_sorted_labels; exact Hc).
    cbn. rewrite Hgrand.
    rewrite (list_fmap_compose
               (fun k => count_rows k c (zip keywords categories)) of_int).
    rewrite column_sum_of_int.
    rewrite (count_rows_over_keywords c _ _ (NoDup_sorted_labels keywords)
               pairs_covered_by_keywords).
    rewrite snd_zip by lia. rewrite of_int_sub. reflexivity.
Qed.

Lemma counted_totals :
  exists totals, compute_category_totals (columns counted) = Ok totals /\
    forall c, is_Some (columns counted !! c) -> is_Some (totals !! c).
Proof.
  destruct (compute_category_totals (columns counted)) as [totals|e]
    eqn:Htotals.
  - exists totals. split; [reflexivity|]. intros c [column Hc].
    destruct (category_totals_lookup _ _ c Htotals)
      as (total_column & _ & Hlookup).
    rewrite Hlookup, Hc. eexists. reflexivity.
  - unfold compute_category_totals, counted_frame in Htotals.
    cbn [columns] in Htotals.
    rewrite lookup_fmap, lookup_insert_eq in Htotals. discriminate.
Qed.

(** From the tagged table to the scores nothing fails: for a table with at
    least one row, two different columns and a category that occurs in it, the frequency frame, its
    totals and the keyness scores of the category are all computed, and
    there is one score per distinct keyword. *)
Theorem keyness_of_tagged_table (log : float64 -> float64)
    (category : string) :
  keywords <> [] -> keyword_col <> category_col ->
  category ∈ categories ->
  exists fr totals out,
    compute_keyword_category_freq df category_col keyword_col = Ok fr /\
    compute_category_totals (columns fr) = Ok totals /\
    compute_keyness log fr totals category = Ok (Scores out) /\
    length out = length (remove_dups keywords).
Proof.
  intros _ Hdistinct Hcategory.
  destruct counted_totals as (totals & Htotals & Hcovered).
  assert (Hcolumn : is_Some (columns counted !! category))
    by (apply counted_columns; right; exact Hcategory).
  destruct (keyness_returns log counted totals category)
    as (out & Hout & Hlen).
  - apply counted_well_formed.
  - exact Hcolumn.
  - apply counted_columns. left. reflexivity.
  - apply Hcovered, Hcolumn.
  - exists counted, totals, out.
    split; [apply frequency_frame_value, Hdistinct|].
    split; [exact Htotals|].
    split; [exact Hout|]. rewrite Hlen. cbn [index counted_frame].
    apply Permutation_length, sort_labels_Permutation.
Qed.

End FrequencyFrame.

(** ** Percentage differences *)

Lemma zip_with_fractions (target ref : float64) (column total : list float64) :
  zip_with (fun t r => Np.div (Np.mul (of_int 100) (Np.sub t r)) r)
    ((fun x => Np.div x target) <$> column)
    ((fun x => Np.div x ref) <$> zip_with Np.sub total column) =
  zip_with (fun x row_total => percent_diff_cell x row_total target ref)
    column total.
Proof.
  revert total. induction column as [|x column IH]; intros [|t total];
    try reflexivity.
  cbn. rewrite IH. reflexivity.
Qed.

Section PercentDiff.

Variables (keyword_cat_freq : frame) (cat_totals : gmap string totals_row).

Lemma percent_diff_column_value (category : string)
    (total column : list float64) (at_category : totals_row) :
  columns keyword_cat_freq !! "Total"%string = Some total ->
  columns keyword_cat_freq !! category = Some column ->
  cat_totals !! category = Some at_category ->
  percent_diff_column keyword_cat_freq cat_totals category =
    Returns (zip_with
               (fun x row_total =>
                  percent_diff_cell x row_total (target_freq at_category)
                    (ref_freq at_category))
               column total).
Proof.
  intros Htotal Hcolumn Hat. unfold percent_diff_column, frame_div_series.
  rewrite Htotal, Hcolumn, Hat. cbn.
  rewrite lookup_merge, Hcolumn, lookup_fmap, Hat. cbn.
  rewrite zip_with_fractions. reflexivity.
Qed.

Lemma percent_diff_column_no_total (category : string) :
  columns keyword_cat_freq !! "Total"%string = None ->
  percent_diff_column keyword_cat_freq cat_totals category =
    Fails AttributeError.
Proof. intros Htotal. unfold percent_diff_column. rewrite Htotal. reflexivity. Qed.

Lemma percent_diff_column_no_row (category : string) :
  is_Some (columns keyword_cat_freq !! "Total"%string) ->
  is_Some (columns keyword_cat_freq !! category) ->
  cat_totals !! category = None ->
  percent_diff_column keyword_cat_freq cat_totals category =
    Fails (Python KeyError).
Proof.
  intros [total Htotal] [column Hcolumn] Hat. unfold percent_diff_column.
  rewrite Htotal, Hcolumn, Hat. reflexivity.
Qed.

Local Abbreviation step := (percent_diff_step keyword_cat_freq cat_totals).

(** When every column met returns, the loop returns, and its result holds
    the new column of every category met besides the columns it started
    with. *)
Lemma loop_returns (value : string -> list float64)
    (l : list (string * list float64)) :
  (forall c column, (c, column) ∈ l -> c <> "Total"%string ->
     percent_diff_column keyword_cat_freq cat_totals c = Returns (value c)) ->
  forall acc, exists percent_diff,
    for_each l step acc = Returns percent_diff /\
    (forall c, columns percent_diff !! c =
       if decide (c ∈ l.*1 /\ c <> "Total"%string) then Some (value c)
       else columns acc !! c) /\
    index percent_diff =
      if decide (Exists (fun p => p.1 <> "Total"%string) l)
      then index keyword_cat_freq else index acc.
Proof.
  induction l as [|[c0 column0] l IH]; intros Hvalue acc.
  - exists acc. split; [reflexivity|]. split.
    + intros c. rewrite decide_False; [reflexivity|].
      intros [Hin _]. apply elem_of_nil in Hin. exact Hin.
    + rewrite decide_False; [reflexivity|].
      intros Hex. apply Exists_nil in Hex. exact Hex.
  - assert (Hrest : forall c column, (c, column) ∈ l ->
              c <> "Total"%string ->
              percent_diff_column keyword_cat_freq cat_totals c =
                Returns (value c))
      by (intros c column Hin; apply (Hvalue c column); right; exact Hin).
    cbn [for_each percent_diff_step].
    destruct (decide (c0 = "Total"%string)) as [->|Hne].
    + destruct (IH Hrest acc) as (pd & Hrun & Hcols & Hindex).
      exists pd. split; [exact Hrun|]. split.
      * intros c. rewrite Hcols. cbn.
        destruct (decide (c ∈ l.*1 /\ c <> "Total"%string))
          as [[Hin Hc]|Hno].
        -- rewrite decide_True; [reflexivity|].
           split; [right; exact Hin | exact Hc].
        -- rewrite decide_False; [reflexivity|].
           intros [Hin Hc]. apply elem_of_cons in Hin as [->|Hin];
             [congruence | apply Hno; split; assumption].
      * rewrite Hindex.
        destruct (decide (Exists (fun p => p.1 <> "Total"%string) l))
          as [Hex|Hno].
        -- rewrite decide_True; [reflexivity|]. apply Exists_cons_tl, Hex.
        -- rewrite decide_False; [reflexivity|].
           intros Hex. apply Exists_cons in Hex as [Hhd|Hex];
             [cbn in Hhd; congruence | contradiction].
    + rewrite (Hvalue c0 column0) by (try left; exact Hne). cbn.
      destruct (IH Hrest
                  {| index := index keyword_cat_freq;
                     columns := <[c0 := value c0]> (columns acc) |})
        as (pd & Hrun & Hcols & Hindex).
      exists pd. split; [exact Hrun|]. split.
      * intros c. rewrite Hcols. cbn.
        destruct (decide (c ∈ l.*1 /\ c <> "Total"%string))
          as [[Hin Hc]|Hno].
        -- rewrite decide_True; [reflexivity|].
           split; [right; exact Hin | exact Hc].
        -- destruct (decide (c = c0)) as [->|Hc0].
           ++ rewrite lookup_insert_eq.
              rewrite decide_True; [reflexivity|]. split; [left | exact Hne].
           ++ rewrite lookup_insert_ne by congruence.
              rewrite decide_False; [reflexivity|].
              intros [Hin Hc]. apply elem_of_cons in Hin as [->|Hin];
                [congruence | apply Hno; split; assumption].
      * rewrite Hindex. cbn.
        rewrite (decide_True (P := Exists _ (_ :: _)))
          by (apply Exists_cons_hd; exact Hne).
        destruct (decide (Exists (fun p => p.1 <> "Total"%string) l));
          reflexivity.
Qed.

(** When the columns met either return or fail with [e], and one of them
    fails, the loop fails with [e]. *)
Lemma loop_fails (e : error) (l : list (string * list float64)) :
  (forall c column, (c, column) ∈ l -> c <> "Total"%string ->
     percent_diff_column keyword_cat_freq cat_totals c = Fails e \/
     exists v, percent_diff_column keyword_cat_freq cat_totals c = Returns v) ->
  (exists c column, (c, column) ∈ l /\ c <> "Total"%string /\
     percent_diff_column keyword_cat_freq cat_totals c = Fails e) ->
  forall acc, for_each l step acc = Fails e.
Proof.
  induction l as [|[c0 column0] l IH];
    intros Hall (c & column & Hin & Hc & Hfail) acc.
  - apply elem_of_nil in Hin. contradiction.
  - assert (Hrest : forall c column, (c, column) ∈ l ->
              c <> "Total"%string ->
              percent_diff_column keyword_cat_freq cat_totals c = Fails e \/
              exists v, percent_diff_column keyword_cat_freq cat_totals c =
                          Returns v)
      by (intros c' column' Hin'; apply (Hall c' column'); right; exact Hin').
    cbn [for_each percent_diff_step].
    destruct (decide (c0 = "Total"%string)) as [->|Hne].
    + cbn. apply IH; [exact Hrest|].
      apply elem_of_cons in Hin as [[= -> ->]|Hin]; [congruence|].
      exists c, column. auto.
    + destruct (Hall c0 column0) as [Hf|[v Hv]]; [left | exact Hne | |].
      * rewrite Hf. reflexivity.
      * rewrite Hv. cbn. apply IH; [exact Hrest|].
        apply elem_of_cons in Hin as [[= -> ->]|Hin]; [congruence|].
        exists c, column. auto.
Qed.

Lemma percent_diff_returns (total : list float64) :
  columns keyword_cat_freq !! "Total"%string = Some total ->
  (forall c, c <> "Total"%string ->
     is_Some (columns keyword_cat_freq !! c) -> is_Some (cat_totals !! c)) ->
  exists percent_diff,
    compute_percent_diff keyword_cat_freq cat_totals = Returns percent_diff /\
    (forall c, columns percent_diff !! c =
       if decide (is_Some (columns keyword_cat_freq !! c) /\
                  c <> "Total"%string)
       then Some (new_column keyword_cat_freq cat_totals c) else None) /\
    index percent_diff =
      if decide (Exists (fun p => p.1 <> "Total"%string)
                   (map_to_list (columns keyword_cat_freq)))
      then index keyword_cat_freq else [].
Proof.
  intros Htotal Hcovered. unfold compute_percent_diff.
  destruct (loop_returns (new_column keyword_cat_freq cat_totals)
              (map_to_list (columns keyword_cat_freq)))
    with (acc := {| index := []; columns := ∅ |})
    as (pd & Hrun & Hcols & Hindex).
  { intros c column Hin Hne. apply elem_of_map_to_list in Hin.
    destruct (Hcovered c Hne) as [at_category Hat]; [eexists; exact Hin|].
    rewrite (percent_diff_column_value c total column at_category
               Htotal Hin Hat).
    unfold new_column. rewrite Htotal, Hin, Hat. reflexivity. }
  exists pd. split; [exact Hrun|]. split; [|exact Hindex].
  intros c. rewrite Hcols. cbn [columns]. rewrite lookup_empty.
  destruct (decide (is_Some (columns keyword_cat_freq !! c) /\
                    c <> "Total"%string)) as [[[column Hc] Hne]|Hno].
  - rewrite decide_True; [reflexivity|]. split; [|exact Hne].
    apply list_elem_of_fmap. exists (c, column). split; [reflexivity|].
    apply elem_of_map_to_list. exact Hc.
  - rewrite decide_False; [reflexivity|].
    intros [Hin Hne]. apply Hno. split; [|exact Hne].
    apply list_elem_of_fmap in Hin as ([c' column] & -> & Hin).
    apply elem_of_map_to_list in Hin. eexists. exact Hin.
Qed.

End PercentDiff.

(** [compute_percent_diff] fails exactly when the frame has a column other
    than ["Total"] and either has no ["Total"] column, which is an
    [AttributeError], or has a column other than ["Total"] that the totals
    do not hold, which is a [KeyError]. *)
Theorem percent_diff_fails_iff (keyword_cat_freq : frame)
    (cat_totals : gmap string totals_row) :
  (fails (compute_percent_diff keyword_cat_freq cat_totals) <->
     exists c, c <> "Total"%string /\
       is_Some (columns keyword_cat_freq !! c) /\
       (columns keyword_cat_freq !! "Total"%string = None \/
        cat_totals !! c = None)) /\
  (forall e, compute_percent_diff keyword_cat_freq cat_totals = Fails e ->
     e = if decide (columns keyword_cat_freq !! "Total"%string = None)
         then AttributeError else Python KeyError).
Proof.
  destruct (columns keyword_cat_freq !! "Total"%string) as [total|] eqn:Htotal.
  - (* a Total column: only a missing row of the totals can fail *)
    rewrite decide_False by discriminate.
    destruct (decide (map_Forall
                (fun c (_ : list float64) =>
                   c <> "Total"%string -> is_Some (cat_totals !! c))
                (columns keyword_cat_freq))) as [Hall|Hnot].
    + destruct (percent_diff_returns keyword_cat_freq cat_totals total Htotal)
        as (pd & Hrun & _).
      { intros c Hne [column Hc]. exact (Hall c column Hc Hne). }
      rewrite Hrun. split; [split|].
      * intros [].
      * intros (c & Hne & [column Hc] & [Hno|Hno]); [discriminate|].
        destruct (Hall c column Hc Hne) as [x Hx]. congruence.
      * intros e He. discriminate.
    + apply map_not_Forall in Hnot as (c & column & Hc & Hmissing);
        [|intros; apply _].
      assert (Hne : c <> "Total"%string)
        by (intros ->; apply Hmissing; intros Hne; congruence).
      assert (Hrow : cat_totals !! c = None).
      { destruct (cat_totals !! c) eqn:Hrow; [|reflexivity].
        exfalso. apply Hmissing. intros _. eexists. reflexivity. }
      unfold compute_percent_diff.
      rewrite (loop_fails keyword_cat_freq cat_totals (Python KeyError)).
      * split; [split|].
        -- intros _. exists c. split; [exact Hne|].
           split; [eexists; exact Hc | right; exact Hrow].
        -- intros _. exact I.
        -- intros e [= <-]. reflexivity.
      * intros c' column' Hin Hne'. apply elem_of_map_to_list in Hin.
        destruct (cat_totals !! c') as [at_category|] eqn:Hat.
        -- right. eexists.
           exact (percent_diff_column_value keyword_cat_freq cat_totals
                    c' total column' at_category Htotal Hin Hat).
        -- left. apply percent_diff_column_no_row;
             [rewrite Htotal | rewrite Hin | exact Hat]; eexists; reflexivity.
      * exists c, column. split; [apply elem_of_map_to_list; exact Hc|].
        split; [exact Hne|].
        apply percent_diff_column_no_row;
          [rewrite Htotal | rewrite Hc | exact Hrow]; eexists; reflexivity.
  - (* no Total column: any column fails as an attribute lookup *)
    rewrite decide_True by reflexivity.
    unfold compute_percent_diff.
    destruct (map_to_list (columns keyword_cat_freq))
      as [|[c column] l] eqn:Hlist.
    + cbn. split; [split|].
      * intros [].
      * intros (c & Hne & [column Hc] & _).
        apply elem_of_map_to_list in Hc. rewrite Hlist in Hc.
        apply elem_of_nil in Hc. exact Hc.
      * intros e He. discriminate.
    + assert (Hc : columns keyword_cat_freq !! c = Some column)
        by (apply elem_of_map_to_list; rewrite Hlist; left).
      assert (Hne : c <> "Total"%string) by (intros ->; congruence).
      rewrite (loop_fails keyword_cat_freq cat_totals AttributeError).
      * split; [split|].
        -- intros _. exists c. split; [exact Hne|].
           split; [eexists; exact Hc | left; reflexivity].
        -- intros _. exact I.
        -- intros e [= <-]. reflexivity.
      * intros c' column' _ _. left.
        apply percent_diff_column_no_total. exact Htotal.
      * exists c, column. split; [left|]. split; [exact Hne|].
        apply percent_diff_column_no_total. exact Htotal.
Qed.

(** When it returns, [compute_percent_diff] returns a frame with the columns
    of the frequency frame except ["Total"], and each cell is the
    percentage difference of its keyword in its category: 100 times the
    difference of the keyword's share of the category and its share of the
    reference, over its share of the reference. *)
Theorem percent_diff_cells (keyword_cat_freq : frame)
    (cat_totals : gmap string totals_row) (total : list float64) :
  columns keyword_cat_freq !! "Total"%string = Some total ->
  (forall c, c <> "Total"%string ->
     is_Some (columns keyword_cat_freq !! c) -> is_Some (cat_totals !! c)) ->
  exists percent_diff,
    compute_percent_diff keyword_cat_freq cat_totals = Returns percent_diff /\
    (forall c, is_Some (columns percent_diff !! c) <->
       c <> "Total"%string /\ is_Some (columns keyword_cat_freq !! c)) /\
    forall c column at_category i x row_total,
      c <> "Total"%string ->
      columns keyword_cat_freq !! c = Some column ->
      cat_totals !! c = Some at_category ->
      column !! i = Some x -> total !! i = Some row_total ->
      row_at (columns percent_diff) i !! c =
        Some (percent_diff_cell x row_total (target_freq at_category)
                (ref_freq at_category)).
Proof.
  intros Htotal Hcovered.
  destruct (percent_diff_returns keyword_cat_freq cat_totals total
              Htotal Hcovered) as (pd & Hrun & Hcols & _).
  exists pd. split; [exact Hrun|]. split.
  - intros c. rewrite Hcols.
    destruct (decide (is_Some (columns keyword_cat_freq !! c) /\
                      c <> "Total"%string)) as [[Hc Hne]|Hno].
    + split; [intros _; split; assumption | intros _; eexists; reflexivity].
    + split; [intros [x Hx]; discriminate|].
      intros [Hne Hc]. exfalso. apply Hno. split; assumption.
  - intros c column at_category i x row_total Hne Hc Hat Hx Hrow.
    rewrite row_at_lookup, Hcols.
    rewrite decide_True by (split; [eexists; exact Hc | exact Hne]).
    cbn. unfold new_column. rewrite Htotal, Hc, Hat.
    rewrite lookup_zip_with, Hx. cbn. rewrite Hrow. reflexivity.
Qed.

Lemma nonempty_elem {A : Type} (l : list A) :
  (0 < length l)%nat -> exists x, x ∈ l.
Proof. destruct l as [|x l]; cbn; [lia|]. intros _. exists x. left. Qed.

(** Likewise for the percentage differences: on the frequency frame of a
    table with at least one row and two different columns, and its totals,
    [compute_percent_diff] returns a frame with the keywords of the frequency frame as rows and
    one column per category (and none for ["Total"]), provided no category
    is called ["Total"]. *)
Theorem percent_diff_of_tagged_table (df : gmap string (list string))
    (category_col keyword_col : string) (keywords categories : list string) :
  df !! keyword_col = Some keywords ->
  df !! category_col = Some categories ->
  length keywords = length categories ->
  keywords <> [] -> keyword_col <> category_col ->
  "Total"%string ∉ categories ->
  exists fr totals percent_diff,
    compute_keyword_category_freq df category_col keyword_col = Ok fr /\
    compute_category_totals (columns fr) = Ok totals /\
    compute_percent_diff fr totals = Returns percent_diff /\
    index percent_diff = index fr /\
    forall c, is_Some (columns percent_diff !! c) <-> c ∈ categories.
Proof.
  intros Hkeywords Hcategories Hlen Hrows Hdistinct Hno_total.
  set (counted := counted_frame keywords categories).
  destruct (counted_totals keywords categories)
    as (totals & Htotals & Hcovered).
  destruct (proj2 (counted_columns keywords categories "Total"%string))
    as [total Htotal]; [left; reflexivity|].
  destruct (percent_diff_returns counted totals total Htotal)
    as (pd & Hrun & Hcols & Hindex).
  { intros c _ Hc. apply Hcovered, Hc. }
  exists counted, totals, pd.
  split; [exact (frequency_frame_value df category_col keyword_col
                   keywords categories Hkeywords Hcategories Hlen
                   Hdistinct)|].
  split; [exact Htotals|]. split; [exact Hrun|]. split.
  - rewrite Hindex. apply decide_True.
    destruct (nonempty_elem categories) as [c0 Hc0].
    { rewrite <- Hlen. destruct keywords; [congruence | cbn; lia]. }
    destruct (proj2 (counted_columns keywords categories c0))
      as [column Hcolumn]; [right; exact Hc0|].
    apply Exists_exists. exists (c0, column). split.
    + apply elem_of_map_to_list. exact Hcolumn.
    + cbn. intros ->. contradiction.
  - intros c. rewrite Hcols.
    destruct (decide (is_Some (columns counted !! c) /\ c <> "Total"%string))
      as [[Hc Hne]|Hno].
    + split; [|intros _; eexists; reflexivity].
      intros _. apply counted_columns in Hc as [->|Hc]; [congruence|exact Hc].
    + split; [intros [x Hx]; discriminate|].
      intros Hc. exfalso. apply Hno. split.
      * apply counted_columns. right. exact Hc.
      * intros ->. contradiction.
Qed.

(** ** The further theorems at concrete inputs *)

Lemma draws_ignore_values_and_statistic_witness :
  snd <$> two_sample_bootstrap_test lcg_next_below Data.ones Data.zeros
            Data.mean 10 7 =
  snd <$> two_sample_bootstrap_test lcg_next_below Data.zeros Data.ones
            (fun _ => zero) 10 7.
Proof.
  apply (draws_ignore_values_and_statistic lcg_next_below
           Data.ones Data.zeros Data.zeros Data.ones
           Data.mean (fun _ => zero) 10 7); reflexivity.
Defined.

Lemma test_raises_iff_no_trial_witness :
  (raises (two_sample_bootstrap_test lcg_next_below Data.ones Data.zeros
             Data.mean (-3) 7) <-> -3 <= 0) /\
  (-3 <= 0 ->
   two_sample_bootstrap_test lcg_next_below Data.ones Data.zeros
     Data.mean (-3) 7 = Raise ZeroDivisionError).
Proof.
  apply (test_raises_iff_no_trial lcg_next_below lcg_next_below_range
           Data.ones Data.zeros Data.mean (-3) 7).
Defined.

Lemma sign_row_follows_ratio_row_witness :
  exists p_value ratios signs g',
    two_sample_bootstrap_test lcg_next_below
      [Data.f 1; Data.f 2; Data.f 3] [Data.f 2; Data.f 2] Data.mean 50 11 =
      Ok ((p_value, [ratios; signs]), g') /\
    signs = (fun ratio => if Np.gt ratio one then one else zero) <$> ratios.
Proof.
  apply (sign_row_follows_ratio_row lcg_next_below lcg_next_below_range
           [Data.f 1; Data.f 2; Data.f 3] [Data.f 2; Data.f 2] Data.mean
           50 11).
  lia.
Defined.

(** Every resample of the ones has a positive mean. *)
Lemma mean_of_ones (r1 : list float64) :
  drawn_from Data.ones r1 -> Np.gt (Data.mean r1) zero = true.
Proof.
  intros [Hlen Hall].
  assert (Hone : Forall (fun x => x = Data.f 1) r1).
  { eapply Forall_impl; [exact Hall|]. intros x Hx. unfold Data.ones in Hx.
    repeat (apply elem_of_cons in Hx as [->|Hx]; [reflexivity|]).
    inversion Hx. }
  destruct r1 as [|x1 [|x2 [|x3 [|x4 [|x5 [|x6 r1]]]]]]; try discriminate.
  repeat (apply Forall_cons in Hone as [-> Hone]).
  vm_compute. reflexivity.
Qed.

Lemma p_value_one_when_second_never_positive_witness :
  exists g',
    two_sample_bootstrap_test lcg_next_below Data.ones Data.zeros Data.mean
      100 7 =
      Ok ((one, [replicate (Z.to_nat 100) PInf;
                 replicate (Z.to_nat 100) one]), g').
Proof.
  apply (p_value_one_when_second_never_positive
           lcg_next_below lcg_next_below_range Data.ones Data.zeros
           Data.mean 100 7).
  - lia.
  - exact mean_of_ones.
  - exact mean_of_zeros_not_positive.
Defined.

Lemma p_value_zero_when_first_never_positive_witness :
  exists ratios g',
    two_sample_bootstrap_test lcg_next_below Data.zeros Data.ones Data.mean
      100 7 =
      Ok ((zero, [ratios; replicate (Z.to_nat 100) zero]), g').
Proof.
  apply (p_value_zero_when_first_never_positive
           lcg_next_below lcg_next_below_range Data.zeros Data.ones
           Data.mean 100 7).
  - lia.
  - exact mean_of_zeros_not_positive.
Defined.

Lemma observed_table_margins_witness :
  exists observed,
    get_observed_from_row Data.first_row "crime"%string Data.small_totals =
      Ok observed /\
    Np.sum <$> row_of observed 0 = Ok (Data.f 60) /\
    Np.sum <$> column_of observed 0 = Ok (Data.f 5) /\
    Np.sum <$> column_of observed 1 = Ok (Data.f 4).
Proof.
  apply (observed_table_margins Data.first_row "crime"%string
           Data.small_totals (Q2Qc (inject_Z 50)) (Q2Qc (inject_Z 60))
           (Q2Qc (inject_Z 5)) (Q2Qc (inject_Z 4))); reflexivity.
Defined.

Lemma example_table_is_finite :
  map_Forall (fun _ c => Forall (fun v => is_finite v = true) c)
    Data.keyword_cat_freq.
Proof.
  unfold Data.keyword_cat_freq.
  repeat (apply map_Forall_insert_2;
          [repeat (first [apply Forall_nil_2 | apply Forall_cons_2]);
           reflexivity|]).
  apply map_Forall_empty.
Qed.

Lemma example_totals :
  compute_category_totals Data.keyword_cat_freq = Ok Data.totals.
Proof. vm_compute. reflexivity. Qed.

Lemma category_totals_split_grand_total_witness :
  exists grand : Qc,
    Data.totals !! "Total"%string =
      Some {| target_freq := Fin grand; ref_freq := zero |} /\
    forall source at_source, Data.totals !! source = Some at_source ->
      Np.add (target_freq at_source) (ref_freq at_source) = Fin grand.
Proof.
  apply (category_totals_split_grand_total Data.keyword_cat_freq Data.totals).
  - exact example_table_is_finite.
  - exact example_totals.
Defined.

Lemma example_frame_well_formed : well_formed Data.freq_frame.
Proof.
  unfold well_formed, Data.freq_frame, Data.keyword_cat_freq.
  cbn [columns index].
  repeat (apply map_Forall_insert_2; [reflexivity|]).
  apply map_Forall_empty.
Qed.

Lemma keyness_scores_every_keyword_witness :
  exists out,
    compute_keyness (fun x => x) Data.freq_frame Data.totals "crime"%string =
      Ok (Scores out) /\
    out.*1 = index Data.freq_frame /\
    forall i label, index Data.freq_frame !! i = Some label ->
      exists ll, out !! i = Some (label, ll) /\
        compute_log_likelihood_from_row (fun x => x)
          (row_at (columns Data.freq_frame) i) "crime"%string Data.totals =
          Ok ll.
Proof.
  apply (keyness_scores_every_keyword (fun x => x) Data.freq_frame
           Data.totals "crime"%string).
  - exact example_frame_well_formed.
  - eexists. reflexivity.
  - eexists. reflexivity.
  - eexists. vm_compute. reflexivity.
Defined.

Lemma keyness_raises_iff_key_missing_witness :
  (raises (compute_keyness (fun x => x) Data.freq_frame Data.totals
             "poetry"%string)
   <-> index Data.freq_frame <> [] /\ columns Data.freq_frame <> ∅ /\
       (columns Data.freq_frame !! "poetry"%string = None \/
        columns Data.freq_frame !! "Total"%string = None \/
        Data.totals !! "poetry"%string = None)) /\
  (forall e,
     compute_keyness (fun x => x) Data.freq_frame Data.totals
       "poetry"%string = Raise e -> e = KeyError) /\
  (index Data.freq_frame = [] \/ columns Data.freq_frame = ∅ ->
   columns Data.freq_frame !! "poetry"%string = None \/
   columns Data.freq_frame !! "Total"%string = None \/
   Data.totals !! "poetry"%string = None ->
   compute_keyness (fun x => x) Data.freq_frame Data.totals "poetry"%string =
     Ok (Copy Data.freq_frame)).
Proof.
  apply (keyness_raises_iff_key_missing (fun x => x) Data.freq_frame
           Data.totals "poetry"%string).
  exact example_frame_well_formed.
Defined.

Lemma tagged_keyword_column :
  Data.tagged !! "keyword"%string = Some Data.tagged_keywords.
Proof. reflexivity. Qed.

Lemma tagged_genre_column :
  Data.tagged !! "genre"%string = Some Data.tagged_genres.
Proof. reflexivity. Qed.

Lemma tagged_without_total : "Total"%string ∉ Data.tagged_genres.
Proof.
  unfold Data.tagged_genres. rewrite !not_elem_of_cons.
  repeat split; try discriminate. apply not_elem_of_nil.
Qed.

Lemma frequency_frame_shape_witness :
  exists fr,
    compute_keyword_category_freq Data.tagged "genre"%string
      "keyword"%string = Ok fr /\
    well_formed fr /\
    NoDup (index fr) /\
    Sorted (fun s1 s2 => Is_true (String.leb s1 s2)) (index fr) /\
    (forall k, k ∈ index fr <-> k ∈ Data.tagged_keywords) /\
    (forall c, is_Some (columns fr !! c) <->
               c = "Total"%string \/ c ∈ Data.tagged_genres).
Proof.
  apply (frequency_frame_shape Data.tagged "genre"%string "keyword"%string
           Data.tagged_keywords Data.tagged_genres
           tagged_keyword_column tagged_genre_column eq_refl);
    discriminate.
Defined.

Lemma frequency_frame_counts_rows_witness :
  exists fr,
    compute_keyword_category_freq Data.tagged "genre"%string
      "keyword"%string = Ok fr /\
    forall i k, index fr !! i = Some k ->
      row_at (columns fr) i !! "Total"%string =
        Some (of_int (occurrences k Data.tagged_keywords)) /\
      forall c, c ∈ Data.tagged_genres -> c <> "Total"%string ->
        row_at (columns fr) i !! c =
          Some (of_int (count_rows k c
                          (zip Data.tagged_keywords Data.tagged_genres))).
Proof.
  apply (frequency_frame_counts_rows Data.tagged "genre"%string
           "keyword"%string Data.tagged_keywords Data.tagged_genres
           tagged_keyword_column tagged_genre_column eq_refl);
    discriminate.
Defined.

Lemma frequency_frame_totals_count_rows_witness :
  exists fr totals,
    compute_keyword_category_freq Data.tagged "genre"%string
      "keyword"%string = Ok fr /\
    compute_category_totals (columns fr) = Ok totals /\
    totals !! "Total"%string =
      Some {| target_freq := of_int (Z.of_nat (length Data.tagged_keywords));
              ref_freq := of_int 0 |} /\
    forall c, c ∈ Data.tagged_genres ->
      totals !! c =
        Some {| target_freq := of_int (occurrences c Data.tagged_genres);
                ref_freq := of_int (Z.of_nat (length Data.tagged_keywords)
                                    - occurrences c Data.tagged_genres) |}.
Proof.
  apply (frequency_frame_totals_count_rows Data.tagged "genre"%string
           "keyword"%string Data.tagged_keywords Data.tagged_genres
           tagged_keyword_column tagged_genre_column eq_refl).
  - discriminate.
  - discriminate.
  - exact tagged_without_total.
Defined.

Lemma keyness_of_tagged_table_witness :
  exists fr totals out,
    compute_keyword_category_freq Data.tagged "genre"%string
      "keyword"%string = Ok fr /\
    compute_category_totals (columns fr) = Ok totals /\
    compute_keyness (fun x => x) fr totals "crime"%string = Ok (Scores out) /\
    length out = length (remove_dups Data.tagged_keywords).
Proof.
  apply (keyness_of_tagged_table Data.tagged "genre"%string
           "keyword"%string Data.tagged_keywords Data.tagged_genres
           tagged_keyword_column tagged_genre_column eq_refl
           (fun x => x) "crime"%string).
  - discriminate.
  - discriminate.
  - left.
Defined.

Lemma percent_diff_of_tagged_table_witness :
  exists fr totals percent_diff,
    compute_keyword_category_freq Data.tagged "genre"%string
      "keyword"%string = Ok fr /\
    compute_category_totals (columns fr) = Ok totals /\
    compute_percent_diff fr totals = Returns percent_diff /\
    index percent_diff = index fr /\
    forall c, is_Some (columns percent_diff !! c) <-> c ∈ Data.tagged_genres.
Proof.
  apply (percent_diff_of_tagged_table Data.tagged "genre"%string
           "keyword"%string Data.tagged_keywords Data.tagged_genres
           tagged_keyword_column tagged_genre_column eq_refl).
  - discriminate.
  - discriminate.
  - exact tagged_without_total.
Defined.

(** The totals of the example hold every column of the example frame. *)
Lemma example_totals_cover (c : string) :
  c <> "Total"%string ->
  is_Some (columns Data.freq_frame !! c) -> is_Some (Data.totals !! c).
Proof.
  intros _ [column Hcolumn]. cbn [columns Data.freq_frame] in Hcolumn.
  unfold Data.keyword_cat_freq in Hcolumn.
  repeat (apply lookup_insert_Some in Hcolumn as [[<- _]|[_ Hcolumn]];
          [eexists; vm_compute; reflexivity|]).
  rewrite lookup_empty in Hcolumn. discriminate.
Qed.

Lemma percent_diff_cells_witness :
  exists percent_diff,
    compute_percent_diff Data.freq_frame Data.totals = Returns percent_diff /\
    (forall c, is_Some (columns percent_diff !! c) <->
       c <> "Total"%string /\ is_Some (columns Data.freq_frame !! c)) /\
    forall c column at_category i x row_total,
      c <> "Total"%string ->
      columns Data.freq_frame !! c = Some column ->
      Data.totals !! c = Some at_category ->
      column !! i = Some x ->
      [Data.f 60; Data.f 20; Data.f 20] !! i = Some row_total ->
      row_at (columns percent_diff) i !! c =
        Some (percent_diff_cell x row_total (target_freq at_category)
                (ref_freq at_category)).
Proof.
  apply (percent_diff_cells Data.freq_frame Data.totals
           [Data.f 60; Data.f 20; Data.f 20]).
  - reflexivity.
  - exact example_totals_cover.
Defined.

(** ** Runs of the functions over frames *)

(** The frequency frame of the tagged table: the keywords sorted, the counts
    of each genre, and the totals of the rows. *)
Example frequency_frame_example :
  match compute_keyword_category_freq Data.tagged "genre"%string
          "keyword"%string with
  | Ok fr =>
      bool_decide (index fr = ["dark"; "love"; "war"]%string)
      && bool_decide (columns fr !! "crime"%string =
                        Some [Data.f 1; Data.f 0; Data.f 2])
      && bool_decide (columns fr !! "romance"%string =
                        Some [Data.f 0; Data.f 2; Data.f 1])
      && bool_decide (columns fr !! "Total"%string =
                        Some [Data.f 1; Data.f 2; Data.f 3])
      && bool_decide (size (columns fr) = 3%nat)
  | Raise _ => false
  end = true.
Proof. vm_compute. reflexivity. Qed.

(** Percentage differences on the small frame: -100 for the keyword that
    never occurs in the category, plus infinity for the one that occurs in
    it only. *)
Example percent_diff_example :
  match compute_percent_diff Data.small_frame Data.small_totals with
  | Returns percent_diff =>
      bool_decide (index percent_diff = ["never"; "only"]%string)
      && bool_decide (columns percent_diff !! "crime"%string =
                        Some [Data.f (-100); PInf])
      && bool_decide (size (columns percent_diff) = 1%nat)
  | Fails _ => false
  end = true.
Proof. vm_compute. reflexivity. Qed.

(** A frame without rows hides a missing category: [compute_keyness]
    returns a copy of the frame instead of raising. *)
Example keyness_of_empty_frame_example :
  match compute_keyness (fun x => x)
          {| index := []; columns := Data.keyword_cat_freq |}
          Data.totals "poetry"%string,
        compute_keyness (fun x => x) Data.freq_frame Data.totals
          "poetry"%string with
  | Ok (Copy fr), Raise KeyError => bool_decide (index fr = [])
  | _, _ => false
  end = true.
Proof. vm_compute. reflexivity. Qed.
